(** * MCPIntegration: the browser-side agent client of [webui/mcp-integration.js]

    A shallow embedding of the [MCPIntegration] class: its four public
    methods ([connect], [sendMessage], [onMessage], [endSession]), the
    private helpers ([_generateSessionId], [_notifyCallbacks]) and the
    background stream consumer ([processStream]) that [sendMessage] starts.

    Conventions of the embedding.
    - A JavaScript string is the list of its UTF-16 code units.
    - Every method is a function from the object ([this]), the store of
      arrays and the answers of the outside world (what [fetch] settles
      with, what [Math.random] draws) to the new object, the new store, the
      trace of effects and the completion of the call.
    - An [async] method is run from its call to its settlement; the model
      of the page ([step]) interleaves whole calls and the chunk deliveries
      of the open response streams.
    - An observer is a function from what it can see (the store and the
      notification) to its completion: it returns or it throws.  What an
      observer does to the rest of the page is outside the model.
    - [Math.random().toString(36)] is an input: the text of the draw. *)

From Stdlib Require Import NArith Lia Bool String Ascii.
From Stdlib.Strings Require Import Byte.
From stdpp Require Import base option list gmap.

#[local] Set Warnings "-register-all,-clear-no-such-hyp".
Local Open Scope N_scope.

(** ** The fragment of JavaScript the class runs on *)

Module JS.

(** A string is a sequence of 16-bit code units. *)
Definition code_unit := N.
Definition jsstring := list code_unit.

(** String literals of the source, written with the characters they hold. *)
Fixpoint lit (s : string) : jsstring :=
  match s with
  | EmptyString => []
  | String c s' => N_of_ascii c :: lit s'
  end.

(** The same for texts that hold double quotes, written ['] here. *)
Definition quoted (s : string) : jsstring :=
  map (fun c => if c =? 39 then 34 else c) (lit s).

#[global] Arguments lit : simpl never.
#[global] Arguments quoted : simpl never.

(** Values: what [JSON.parse] can build, and [undefined] for the
    properties that are not there.  A number keeps the text of its
    literal; an object keeps its members in source order. *)
Inductive jsval :=
| JUndefined
| JNull
| JBool (b : bool)
| JNumber (literal : jsstring)
| JString (s : jsstring)
| JArray (items : list jsval)
| JObject (members : list (jsstring * jsval)).

(** An exception: the [name] of its class and its [message]. *)
Record jserror := Err { err_name : string; err_message : jsstring }.

(** How a call ends. *)
Inductive completion (A : Type) :=
| Return (v : A)
| Throw (e : jserror).
Arguments Return {A} v.
Arguments Throw {A} e.

(** [ToBoolean].  A number is falsy when the double its literal is read
    as is zero.  The literal stands for [m * 10 ^ e] with [m] the integer of
    the digits of its mantissa; it is read, rounding to the nearest double,
    as zero when [m] is 0 or when [m * 10 ^ e] is at most [2 ^ -1075], half
    of the least positive double. *)
Fixpoint mantissa (l : jsstring) : jsstring :=
  match l with
  | [] => []
  | c :: l' => if (c =? 101) || (c =? 69) then [] else c :: mantissa l'
  end.

Fixpoint exponent_text (l : jsstring) : jsstring :=
  match l with
  | [] => []
  | c :: l' => if (c =? 101) || (c =? 69) then l' else exponent_text l'
  end.

Definition is_decimal_digit (c : code_unit) : bool := (48 <=? c) && (c <=? 57).

Definition decimal_value (s : jsstring) : N :=
  foldl (fun acc c => if is_decimal_digit c then acc * 10 + (c - 48) else acc) 0 s.

Fixpoint fraction_digits (m : jsstring) : N :=
  match m with
  | [] => 0
  | c :: m' =>
      if c =? 46 then N.of_nat (length (List.filter is_decimal_digit m'))
      else fraction_digits m'
  end.

Definition reads_as_zero (l : jsstring) : bool :=
  let m := decimal_value (mantissa l) in
  let f := fraction_digits (mantissa l) in
  let x := exponent_text l in
  let down := match x with 45 :: _ => true | _ => false end in
  let e := decimal_value x in
  if m =? 0 then true
  else if down then m * 2 ^ 1075 <=? 10 ^ (e + f)
  else if f <=? e then false
  else m * 2 ^ 1075 <=? 10 ^ (f - e).

Definition truthy (v : jsval) : bool :=
  match v with
  | JUndefined | JNull => false
  | JBool b => b
  | JNumber l => negb (reads_as_zero l)
  | JString s => match s with [] => false | _ => true end
  | JArray _ | JObject _ => true
  end.

Definition str_truthy (s : jsstring) : bool :=
  match s with [] => false | _ :: _ => true end.

Definition jsstring_eqb (a b : jsstring) : bool := bool_decide (a = b).

(** [s.split(sep)] for a separator of one code unit: always at least one
    piece, one more than there are separators. *)
Fixpoint split (sep : code_unit) (s : jsstring) : list jsstring :=
  match s with
  | [] => [[]]
  | c :: s' =>
      if c =? sep then [] :: split sep s'
      else match split sep s' with
           | [] => [[c]]
           | piece :: pieces => (c :: piece) :: pieces
           end
  end.

(** [a.pop()]: the last element ([undefined] when there is none) and the
    array without it. *)
Definition pop {A} (a : list A) : option A * list A := (last a, removelast a).

(** [x || ''] for [x] a string or [undefined]. *)
Definition or_empty (x : option jsstring) : jsstring :=
  match x with
  | Some s => if str_truthy s then s else []
  | None => []
  end.

(** [s.substring(i, j)] for [i <= j]. *)
Definition substring (i j : nat) (s : jsstring) : jsstring :=
  take (j - i) (drop i s).

(** White space and line terminators, as [trim] strips them. *)
Definition is_space (c : code_unit) : bool :=
  (c =? 9) || (c =? 10) || (c =? 11) || (c =? 12) || (c =? 13) || (c =? 32)
  || (c =? 160) || (c =? 5760) || ((8192 <=? c) && (c <=? 8202))
  || (c =? 8232) || (c =? 8233) || (c =? 8239) || (c =? 8287)
  || (c =? 12288) || (c =? 65279).

Fixpoint trim_start (s : jsstring) : jsstring :=
  match s with
  | c :: s' => if is_space c then trim_start s' else s
  | [] => []
  end.

Definition trim (s : jsstring) : jsstring :=
  rev (trim_start (rev (trim_start s))).

(** [s.replace(pat, '')] for a string pattern: the first occurrence of
    [pat] is removed. *)
Fixpoint starts_with (pat s : jsstring) : option jsstring :=
  match pat, s with
  | [], _ => Some s
  | p :: pat', c :: s' => if p =? c then starts_with pat' s' else None
  | _ :: _, [] => None
  end.

Fixpoint replace_first (pat rep s : jsstring) : jsstring :=
  match starts_with pat s with
  | Some rest => rep ++ rest
  | None => match s with
            | [] => []
            | c :: s' => c :: replace_first pat rep s'
            end
  end.

(** [o.k]: reading a property.  [null] and [undefined] have none and the
    read throws; an object built by [JSON.parse] has its members, the
    later of two equal keys winning; the other values have none of the
    properties the client reads. *)
Fixpoint lookup_member (k : jsstring) (ms : list (jsstring * jsval)) : option jsval :=
  match ms with
  | [] => None
  | (k', v) :: ms' =>
      match lookup_member k ms' with
      | Some w => Some w
      | None => if jsstring_eqb k k' then Some v else None
      end
  end.

Definition get (o : jsval) (k : jsstring) : option jsval :=
  match o with
  | JUndefined | JNull => None
  | JObject ms => Some (default JUndefined (lookup_member k ms))
  | _ => Some JUndefined
  end.

(** Decimal text of a number, as a template literal prints an integer. *)
Definition digit (n : N) : code_unit := 48 + n.

Fixpoint decimal_pos (fuel : nat) (n : N) (acc : jsstring) : jsstring :=
  match fuel with
  | O => acc
  | S fuel' =>
      if n <? 10 then digit n :: acc
      else decimal_pos fuel' (n / 10) (digit (n mod 10) :: acc)
  end.

Definition decimal (n : N) : jsstring := decimal_pos (S (N.to_nat (N.log2 n))) n [].

End JS.
Import JS.

(** ** The platform: what the browser provides

    [TextDecoder] and [JSON.parse] are not part of the class.  The class is
    verified against any platform of this interface; two reference
    instances follow, to run the class on concrete inputs. *)

Class Platform := {
  (** the internal state of a [TextDecoder], and that of a new one *)
  decoder_state : Type;
  decoder_new : decoder_state;
  (** [decode(value, { stream: true })] consumes the bytes one by one *)
  decode_byte : decoder_state -> byte -> decoder_state * jsstring;
  (** [JSON.parse(text)]: a value, or a [SyntaxError] *)
  JSON_parse : jsstring -> completion jsval;
  (** the [TypeError] of reading property [k] of [null] *)
  null_read_error : jsstring -> jserror;
  (** the [TypeError] of [null.getReader()] on a response without body *)
  null_body_error : jserror;
  (** the [TypeError] of calling a value that is not a function *)
  not_callable_error : jserror
}.

(** *** Reference [JSON.parse]: the JSON grammar of ECMA-404 *)

Module Json.

Definition is_ws (c : code_unit) : bool :=
  (c =? 32) || (c =? 9) || (c =? 10) || (c =? 13).

Fixpoint skip_ws (s : jsstring) : jsstring :=
  match s with
  | c :: s' => if is_ws c then skip_ws s' else s
  | [] => []
  end.

Definition is_digit (c : code_unit) : bool := (48 <=? c) && (c <=? 57).

Fixpoint digits (s : jsstring) : jsstring * jsstring :=
  match s with
  | c :: s' =>
      if is_digit c then let '(ds, r) := digits s' in (c :: ds, r) else ([], s)
  | [] => ([], [])
  end.

Definition hex (c : code_unit) : option N :=
  if is_digit c then Some (c - 48)
  else if (97 <=? c) && (c <=? 102) then Some (c - 87)
  else if (65 <=? c) && (c <=? 70) then Some (c - 55)
  else None.

Definition hex4 (a b c d : code_unit) : option code_unit :=
  x ← hex a; y ← hex b; z ← hex c; w ← hex d;
  Some (((x * 16 + y) * 16 + z) * 16 + w).

(** The integer part, then an optional fraction, then an optional
    exponent; the literal is kept as it is written. *)
Definition int_part (s : jsstring) : option (jsstring * jsstring) :=
  match s with
  | 48 :: r => Some ([48], r)
  | c :: _ => if is_digit c then Some (digits s) else None
  | [] => None
  end.

Definition frac_part (s : jsstring) : option (jsstring * jsstring) :=
  match s with
  | 46 :: r => match digits r with
               | ([], _) => None
               | (ds, r') => Some (46 :: ds, r')
               end
  | _ => Some ([], s)
  end.

Definition exp_digits (mark : jsstring) (s : jsstring) : option (jsstring * jsstring) :=
  match digits s with
  | ([], _) => None
  | (ds, r) => Some (mark ++ ds, r)
  end.

Definition exp_part (s : jsstring) : option (jsstring * jsstring) :=
  match s with
  | e :: r =>
      if (e =? 101) || (e =? 69) then
        match r with
        | sg :: r' => if (sg =? 43) || (sg =? 45) then exp_digits [e; sg] r'
                      else exp_digits [e] r
        | [] => None
        end
      else Some ([], s)
  | [] => Some ([], [])
  end.

Definition number (s : jsstring) : option (jsval * jsstring) :=
  let '(sign, s0) := match s with 45 :: r => ([45], r) | _ => ([], s) end in
  '(i, s1) ← int_part s0;
  '(f, s2) ← frac_part s1;
  '(e, s3) ← exp_part s2;
  Some (JNumber (sign ++ i ++ f ++ e), s3).

(** After the opening quote: the characters up to the closing quote. *)
Fixpoint string_body (s acc : jsstring) : option (jsstring * jsstring) :=
  match s with
  | [] => None
  | 34 :: r => Some (rev acc, r)
  | 92 :: r =>
      match r with
      | 34 :: r' => string_body r' (34 :: acc)
      | 92 :: r' => string_body r' (92 :: acc)
      | 47 :: r' => string_body r' (47 :: acc)
      | 98 :: r' => string_body r' (8 :: acc)
      | 102 :: r' => string_body r' (12 :: acc)
      | 110 :: r' => string_body r' (10 :: acc)
      | 114 :: r' => string_body r' (13 :: acc)
      | 116 :: r' => string_body r' (9 :: acc)
      | 117 :: a :: b :: c :: d :: r' =>
          match hex4 a b c d with
          | Some u => string_body r' (u :: acc)
          | None => None
          end
      | _ => None
      end
  | c :: r => if c <? 32 then None else string_body r (c :: acc)
  end.

Fixpoint value (fuel : nat) (s : jsstring) : option (jsval * jsstring) :=
  match fuel with
  | O => None
  | S f =>
      match skip_ws s with
      | 123 :: r =>
          match skip_ws r with
          | 125 :: r' => Some (JObject [], r')
          | _ => members f r []
          end
      | 91 :: r =>
          match skip_ws r with
          | 93 :: r' => Some (JArray [], r')
          | _ => elements f r []
          end
      | 34 :: r =>
          '(str, r') ← string_body r []; Some (JString str, r')
      | 116 :: 114 :: 117 :: 101 :: r => Some (JBool true, r)
      | 102 :: 97 :: 108 :: 115 :: 101 :: r => Some (JBool false, r)
      | 110 :: 117 :: 108 :: 108 :: r => Some (JNull, r)
      | s' => number s'
      end
  end
with elements (fuel : nat) (s : jsstring) (acc : list jsval) : option (jsval * jsstring) :=
  match fuel with
  | O => None
  | S f =>
      '(v, r) ← value f s;
      match skip_ws r with
      | 44 :: r' => elements f r' (v :: acc)
      | 93 :: r' => Some (JArray (rev (v :: acc)), r')
      | _ => None
      end
  end
with members (fuel : nat) (s : jsstring) (acc : list (jsstring * jsval))
    : option (jsval * jsstring) :=
  match fuel with
  | O => None
  | S f =>
      match skip_ws s with
      | 34 :: r =>
          '(k, r1) ← string_body r [];
          match skip_ws r1 with
          | 58 :: r2 =>
              '(v, r3) ← value f r2;
              match skip_ws r3 with
              | 44 :: r4 => members f r4 ((k, v) :: acc)
              | 125 :: r4 => Some (JObject (rev ((k, v) :: acc)), r4)
              | _ => None
              end
          | _ => None
          end
      | _ => None
      end
  end.

Definition syntax_error : jserror :=
  Err "SyntaxError" (lit "Unexpected token in JSON").

Definition parse (text : jsstring) : completion jsval :=
  match value (2 * length text + 2) text with
  | Some (v, r) =>
      match skip_ws r with
      | [] => Return v
      | _ :: _ => Throw syntax_error
      end
  | None => Throw syntax_error
  end.

End Json.

(** *** Reference [TextDecoder]: the UTF-8 decoder of the Encoding standard *)

Module Utf8.

Record state := State {
  code_point : N;
  bytes_seen : N;
  bytes_needed : N;
  lower : N;
  upper : N;
  bom_seen : bool
}.

Definition reset (bom : bool) : state := State 0 0 0 128 191 bom.

Definition start : state := reset false.

(** A byte met when no sequence is open. *)
Definition lead (bom : bool) (b : N) : state * list N :=
  if b <=? 127 then (reset bom, [b])
  else if (194 <=? b) && (b <=? 223) then
    (State (N.land b 31) 0 1 128 191 bom, [])
  else if (224 <=? b) && (b <=? 239) then
    (State (N.land b 15) 0 2 (if b =? 224 then 160 else 128)
           (if b =? 237 then 159 else 191) bom, [])
  else if (240 <=? b) && (b <=? 244) then
    (State (N.land b 7) 0 3 (if b =? 240 then 144 else 128)
           (if b =? 244 then 143 else 191) bom, [])
  else (reset bom, [65533]).

(** One byte: the new state and the code points it completes.  A byte
    that cannot continue the open sequence ends it with U+FFFD and is
    read again as a first byte. *)
Definition handler (st : state) (b : N) : state * list N :=
  let bom := bom_seen st in
  if bytes_needed st =? 0 then lead bom b
  else if (b <? lower st) || (upper st <? b) then
    let '(st', out) := lead bom b in (st', 65533 :: out)
  else
    let cp := N.lor (N.shiftl (code_point st) 6) (N.land b 63) in
    if bytes_seen st + 1 =? bytes_needed st then (reset bom, [cp])
    else (State cp (bytes_seen st + 1) (bytes_needed st) 128 191 bom, []).

(** The code units of a code point. *)
Definition units (cp : N) : jsstring :=
  if cp <? 65536 then [cp]
  else [55296 + (cp - 65536) / 1024; 56320 + (cp - 65536) mod 1024].

(** A byte order mark at the very start of the text is dropped. *)
Definition decode_byte (st : state) (b : byte) : state * jsstring :=
  let '(st', cps) := handler st (Byte.to_N b) in
  match cps with
  | [] => (st', [])
  | cp :: rest =>
      let st'' := State (code_point st') (bytes_seen st') (bytes_needed st')
                        (lower st') (upper st') true in
      if negb (bom_seen st) && (cp =? 65279) then (st'', concat (map units rest))
      else (st'', concat (map units cps))
  end.

End Utf8.

(** The platform of a current browser. *)
Definition browser : Platform := {|
  decoder_state := Utf8.state;
  decoder_new := Utf8.start;
  decode_byte := Utf8.decode_byte;
  JSON_parse := Json.parse;
  null_read_error k :=
    Err "TypeError" (lit "Cannot read properties of null (reading '" ++ k ++ lit "')");
  null_body_error :=
    Err "TypeError" (lit "Cannot read properties of null (reading 'getReader')");
  not_callable_error := Err "TypeError" (lit "callback is not a function")
|}.

(** The bytes of a text of ASCII characters. *)
Definition bytes_of (text : jsstring) : list byte :=
  omap (fun c => Byte.of_N c) text.

(** ** Data of the client *)

(** One entry of the [toolCalls] array of an exchange. *)
Record ToolCallRecord := ToolCall { tool : jsval; arguments : jsval }.

(** Arrays are objects: an array is known by its reference, and the store
    holds what each array contains now.  The only arrays the class makes
    are the [toolCalls] of its exchanges. *)
Definition array_ref := nat.
Abbreviation store := (gmap nat (list ToolCallRecord)).

(** What is handed to the observers.  [final] carries the [toolCalls]
    array itself, not a copy of it. *)
Inductive Notification :=
| update (content : jsval)
| tool_call (tool arguments : jsval)
| tool_result (result : jsval)
| final (content : jsval) (toolCalls : array_ref)
| error (error : jsval).

Definition observer := store -> Notification -> completion unit.

(** A value given to [onMessage]: a function, or anything else. *)
Inductive callback :=
| Fn (body : observer)
| Val (v : jsval).

Definition is_function (cb : callback) : bool :=
  match cb with Fn _ => true | Val _ => false end.

(** [fetch]: the request, and how the promise settles. *)
Inductive Method := GET | POST | DELETE.

Record Request := {
  method : Method;
  url : jsstring;
  headers : list (jsstring * jsstring);
  body : option jsval  (* the value given to [JSON.stringify] *)
}.

Record Response := { status : N; has_body : bool }.

Definition ok (resp : Response) : bool :=
  (200 <=? status resp) && (status resp <=? 299).

Inductive FetchOutcome :=
| Resolves (resp : Response)
| Rejects (e : jserror).

(** [reader.read()]: how each successive call settles. *)
Inductive ReadResult :=
| Chunk (value : list byte)   (* { done: false, value } *)
| Done                        (* { done: true } *)
| ReadFails (e : jserror).

(** The effects a call leaves behind, in order. *)
Inductive LogArg := LogError (e : jserror) | LogText (s : jsstring).

Inductive effect :=
| Fetch (req : Request)
| ConsoleError (text : jsstring) (more : list LogArg)
| Close (h : array_ref)
| Push (r : array_ref) (rec : ToolCallRecord)
| Notify (data : Notification)
| Invoke (cb : callback) (data : Notification).

Definition trace := list effect.

(** The object. *)
Record MCPIntegration := {
  sessionId : jsstring;
  connected : bool;
  eventSource : option array_ref;
  messageCallbacks : list callback
}.

(** What a call to a method leaves: the object and the store after it,
    its effects, how it settled, and the exchange whose stream consumer it
    started, if any. *)
Record Call := {
  after : MCPIntegration;
  heap : store;
  effects : trace;
  settled : completion jsval;
  started : option array_ref
}.

(** The variables of one run of [processStream] that change. *)
Record Locals `{Platform} := {
  decoder : decoder_state;
  receivedText : jsstring
}.

(** How far a run of [processStream] has come. *)
Inductive Task `{Platform} :=
| Pending (loc : Locals)   (* waiting for the next [reader.read()] *)
| Fulfilled
| Rejected (e : jserror).

(** ** The class *)

Section Client.
Context `{platform : Platform}.

Definition API_BASE : jsstring := lit "/api/agent".

Definition _generateSessionId (random36 : jsstring) : jsstring :=
  lit "session_" ++ substring 2 15 random36.

Definition constructor (random36 : jsstring) : MCPIntegration :=
  {| sessionId := _generateSessionId random36;
     connected := false;
     eventSource := None;
     messageCallbacks := [] |}.

Definition set_connected (b : bool) (this : MCPIntegration) : MCPIntegration :=
  {| sessionId := sessionId this; connected := b;
     eventSource := eventSource this; messageCallbacks := messageCallbacks this |}.

Definition health_request : Request :=
  {| method := GET;
     url := replace_first (lit "/chat") [] API_BASE ++ lit "/health";
     headers := []; body := None |}.

Definition connect (this : MCPIntegration) (σ : store) (health : FetchOutcome) : Call :=
  if connected this then
    {| after := this; heap := σ; effects := []; settled := Return JUndefined;
       started := None |}
  else
    match health with
    | Resolves response =>
        if negb (ok response) then
          {| after := this; heap := σ;
             effects := [Fetch health_request;
                         ConsoleError (lit "Failed to connect to MCP Agent API") []];
             settled := Return (JBool false); started := None |}
        else
          {| after := set_connected true this; heap := σ;
             effects := [Fetch health_request];
             settled := Return (JBool true); started := None |}
    | Rejects e =>
        {| after := this; heap := σ;
           effects := [Fetch health_request;
                       ConsoleError (lit "Error connecting to MCP Agent API:") [LogError e]];
           settled := Return (JBool false); started := None |}
    end.

(** [onMessage] *)
Definition onMessage (this : MCPIntegration) (cb : callback) : MCPIntegration :=
  if is_function cb then
    {| sessionId := sessionId this; connected := connected this;
       eventSource := eventSource this;
       messageCallbacks := messageCallbacks this ++ [cb] |}
  else this.

(** [_notifyCallbacks]: the loop over the array, left at the first
    callback that throws. *)
Fixpoint call_each (cbs : list callback) (σ : store) (data : Notification)
    : trace * completion unit :=
  match cbs with
  | [] => ([], Return ())
  | cb :: rest =>
      match cb with
      | Fn f =>
          match f σ data with
          | Return _ =>
              let '(t, c) := call_each rest σ data in (Invoke cb data :: t, c)
          | Throw e => ([Invoke cb data], Throw e)
          end
      | Val _ => ([Invoke cb data], Throw not_callable_error)
      end
  end.

Definition _notifyCallbacks (this : MCPIntegration) (σ : store) (data : Notification)
    : trace * completion unit :=
  let '(t, c) := call_each (messageCallbacks this) σ data in (Notify data :: t, c).

(** *** [processStream] *)

Definition prop (o : jsval) (k : string) : jsval :=
  default JUndefined (get o (lit k)).

Definition is_str (v : jsval) (s : string) : bool :=
  match v with
  | JString x => jsstring_eqb x (lit s)
  | _ => false
  end.

(** [toolCalls.push(rec)] *)
Definition push (σ : store) (r : array_ref) (rec : ToolCallRecord) : store :=
  alter (fun a => a ++ [rec]) r σ.

(** The body of the inner [try]: parse the line, switch on its type. *)
Definition try_line (this : MCPIntegration) (σ : store) (toolCalls : array_ref)
    (line : jsstring) : store * trace * completion unit :=
  match JSON_parse line with
  | Throw e => (σ, [], Throw e)
  | Return event =>
      match get event (lit "type") with
      | None => (σ, [], Throw (null_read_error (lit "type")))
      | Some type =>
          if is_str type "content" then
            let '(t, c) := _notifyCallbacks this σ (update (prop event "content")) in
            (σ, t, c)
          else if is_str type "tool_call" then
            let rec := ToolCall (prop event "tool") (prop event "arguments") in
            let σ' := push σ toolCalls rec in
            let '(t, c) :=
              _notifyCallbacks this σ'
                (tool_call (prop event "tool") (prop event "arguments")) in
            (σ', Push toolCalls rec :: t, c)
          else if is_str type "tool_result" then
            let '(t, c) := _notifyCallbacks this σ (tool_result (prop event "result")) in
            (σ, t, c)
          else if is_str type "final" then
            let '(t, c) :=
              _notifyCallbacks this σ (final (prop event "content") toolCalls) in
            (σ, t, c)
          else if is_str type "error" then
            let '(t, c) := _notifyCallbacks this σ (error (prop event "content")) in
            (σ, t, c)
          else (σ, [], Return ())
      end
  end.

Definition blank (line : jsstring) : bool := negb (str_truthy (trim line)).

(** The body of [for (const line of lines)]. *)
Definition for_line (this : MCPIntegration) (σ : store) (toolCalls : array_ref)
    (line : jsstring) : store * trace :=
  if blank line then (σ, [])
  else
    let '(σ', t, c) := try_line this σ toolCalls line in
    match c with
    | Return _ => (σ', t)
    | Throw parseError =>
        (σ', t ++ [ConsoleError (lit "Error parsing event:")
                     [LogError parseError; LogText line]])
    end.

Fixpoint for_lines (this : MCPIntegration) (σ : store) (toolCalls : array_ref)
    (lines : list jsstring) : store * trace :=
  match lines with
  | [] => (σ, [])
  | line :: rest =>
      let '(σ1, t1) := for_line this σ toolCalls line in
      let '(σ2, t2) := for_lines this σ1 toolCalls rest in
      (σ2, t1 ++ t2)
  end.

(** [decoder.decode(value, { stream: true })] *)
Fixpoint decode (d : decoder_state) (value : list byte) : decoder_state * jsstring :=
  match value with
  | [] => (d, [])
  | b :: rest =>
      let '(d1, s1) := decode_byte d b in
      let '(d2, s2) := decode d1 rest in
      (d2, s1 ++ s2)
  end.

(** The body of [while (true)] after a read that brought a chunk. *)
Definition on_chunk (this : MCPIntegration) (σ : store) (toolCalls : array_ref)
    (loc : Locals) (value : list byte) : store * Locals * trace :=
  let '(d, text) := decode (decoder loc) value in
  let receivedText0 := receivedText loc ++ text in
  let lines0 := split 10 receivedText0 in
  let '(popped, lines) := pop lines0 in
  let receivedText1 := or_empty popped in
  let '(σ', t) := for_lines this σ toolCalls lines in
  (σ', {| decoder := d; receivedText := receivedText1 |}, t).

(** The outer [catch] of [processStream]. *)
Definition on_stream_error (this : MCPIntegration) (σ : store) (streamError : jserror)
    : trace * Task :=
  let '(t, c) :=
    _notifyCallbacks this σ
      (error (JString (lit "Stream error: " ++ err_message streamError))) in
  (ConsoleError (lit "Error processing stream:") [LogError streamError] :: t,
   match c with Return _ => Fulfilled | Throw e => Rejected e end).

(** [processStream], run against the successive results of
    [reader.read()]; when they run out, the task waits for the next. *)
Fixpoint processStream (this : MCPIntegration) (σ : store) (toolCalls : array_ref)
    (loc : Locals) (reads : list ReadResult) : store * trace * Task :=
  match reads with
  | [] => (σ, [], Pending loc)
  | Done :: _ => (σ, [], Fulfilled)
  | ReadFails e :: _ =>
      let '(t, task) := on_stream_error this σ e in (σ, t, task)
  | Chunk value :: rest =>
      let '(σ1, loc1, t1) := on_chunk this σ toolCalls loc value in
      let '(σ2, t2, task) := processStream this σ1 toolCalls loc1 rest in
      (σ2, t1 ++ t2, task)
  end.

(** The locals as [sendMessage] declares them. *)
Definition fresh_locals : Locals := {| decoder := decoder_new; receivedText := [] |}.

(** *** [sendMessage] *)

Definition chat_url (this : MCPIntegration) : jsstring :=
  API_BASE ++ lit "/chat/" ++ sessionId this.

Definition chat_request (this : MCPIntegration) (message : jsstring) : Request :=
  {| method := POST;
     url := chat_url this;
     headers := [(lit "Content-Type", lit "application/json")];
     body := Some (JObject [(lit "message", JString message)]) |}.

(** [if (this.eventSource) this.eventSource.close()] *)
Definition close_eventSource (this : MCPIntegration) : trace :=
  match eventSource this with
  | Some h => [Close h]
  | None => []
  end.

(** The body of the [try] of [sendMessage]: it returns [true] with the
    exchange it started, or throws. *)
Definition send_try (this : MCPIntegration) (σ : store) (message : jsstring)
    (chat : FetchOutcome) : store * trace * completion jsval * option array_ref :=
  let t := close_eventSource this ++ [Fetch (chat_request this message)] in
  match chat with
  | Rejects e => (σ, t, Throw e, None)
  | Resolves response =>
      if negb (ok response) then
        (σ, t, Throw (Err "Error" (lit "API error: " ++ decimal (status response))), None)
      else if negb (has_body response) then
        (σ, t, Throw null_body_error, None)
      else
        let toolCalls := fresh (dom σ) in
        (<[toolCalls := []]> σ, t, Return (JBool true), Some toolCalls)
  end.

(** [sendMessage] once the client is connected. *)
Definition send_connected (this : MCPIntegration) (σ : store) (message : jsstring)
    (chat : FetchOutcome) : Call :=
  let '(σ1, t, c, exchange) := send_try this σ message chat in
  match c with
  | Return v =>
      {| after := this; heap := σ1; effects := t; settled := Return v;
         started := exchange |}
  | Throw e =>
      let '(tn, cn) :=
        _notifyCallbacks this σ1
          (error (JString (lit "Failed to send message: " ++ err_message e))) in
      {| after := this; heap := σ1;
         effects := t ++ ConsoleError (lit "Error sending message:") [LogError e] :: tn;
         settled := match cn with
                    | Return _ => Return (JBool false)
                    | Throw e' => Throw e'
                    end;
         started := None |}
  end.

Definition value_of (c : completion jsval) : jsval :=
  match c with Return v => v | Throw _ => JUndefined end.

Definition sendMessage (this : MCPIntegration) (σ : store) (message : jsstring)
    (health chat : FetchOutcome) : Call :=
  if negb (connected this) then
    let attempt := connect this σ health in
    if negb (truthy (value_of (settled attempt))) then
      {| after := after attempt; heap := heap attempt; effects := effects attempt;
         settled := Return JUndefined; started := None |}
    else
      let sent := send_connected (after attempt) (heap attempt) message chat in
      {| after := after sent; heap := heap sent;
         effects := effects attempt ++ effects sent;
         settled := settled sent; started := started sent |}
  else send_connected this σ message chat.

(** *** [endSession] *)

Definition delete_request (this : MCPIntegration) : Request :=
  {| method := DELETE; url := chat_url this; headers := []; body := None |}.

Definition endSession (this : MCPIntegration) (σ : store) (deleted : FetchOutcome)
    (random36 : jsstring) : Call :=
  if negb (connected this) then
    {| after := this; heap := σ; effects := []; settled := Return JUndefined;
       started := None |}
  else
    let t := close_eventSource this ++ [Fetch (delete_request this)] in
    match deleted with
    | Resolves _ =>
        {| after := {| sessionId := _generateSessionId random36;
                       connected := false;
                       eventSource := None;
                       messageCallbacks := messageCallbacks this |};
           heap := σ; effects := t; settled := Return JUndefined; started := None |}
    | Rejects e =>
        {| after := {| sessionId := sessionId this;
                       connected := connected this;
                       eventSource := None;
                       messageCallbacks := messageCallbacks this |};
           heap := σ;
           effects := t ++ [ConsoleError (lit "Error ending session:") [LogError e]];
           settled := Return JUndefined; started := None |}
    end.

End Client.

(** ** The page: the client, its open streams and the calls made to it *)

Section Page.
Context `{platform : Platform}.

(** The object, the store, and the exchanges whose [processStream] is
    waiting for its next read, each with its locals.  An exchange is
    known by its [toolCalls] array. *)
Record System := {
  client : MCPIntegration;
  arrays : store;
  consumers : gmap nat Locals;
  log : trace
}.

Inductive Input :=
| CallConnect (health : FetchOutcome)
| CallSendMessage (message : jsstring) (health chat : FetchOutcome)
| CallOnMessage (cb : callback)
| CallEndSession (deleted : FetchOutcome) (random36 : jsstring)
| Read (exchange : array_ref) (res : ReadResult).

(** The handles a trace closes.  Closing the handle of an exchange ends
    its consumer. *)
Definition closes (t : trace) : list array_ref :=
  omap (fun e => match e with Close h => Some h | _ => None end) t.

Definition after_call (s : System) (c : Call) : System :=
  let live := foldr delete (consumers s) (closes (effects c)) in
  {| client := after c;
     arrays := heap c;
     consumers := match started c with
                  | Some exchange => <[exchange := fresh_locals]> live
                  | None => live
                  end;
     log := log s ++ effects c |}.

Definition step (s : System) (i : Input) : System :=
  match i with
  | CallConnect health => after_call s (connect (client s) (arrays s) health)
  | CallSendMessage message health chat =>
      after_call s (sendMessage (client s) (arrays s) message health chat)
  | CallOnMessage cb =>
      {| client := onMessage (client s) cb; arrays := arrays s;
         consumers := consumers s; log := log s |}
  | CallEndSession deleted random36 =>
      after_call s (endSession (client s) (arrays s) deleted random36)
  | Read exchange res =>
      match consumers s !! exchange with
      | None => s
      | Some loc =>
          let '(σ, t, task) :=
            processStream (client s) (arrays s) exchange loc [res] in
          {| client := client s; arrays := σ;
             consumers := match task with
                          | Pending loc' => <[exchange := loc']> (consumers s)
                          | _ => delete exchange (consumers s)
                          end;
             log := log s ++ t |}
      end
  end.

(** [window.mcpIntegration = new MCPIntegration()] *)
Definition boot (random36 : jsstring) : System :=
  {| client := constructor random36; arrays := ∅; consumers := ∅; log := [] |}.

Definition run (random36 : jsstring) (inputs : list Input) : System :=
  foldl step (boot random36) inputs.

(** ** Notions of the specification *)

(** The complete lines of a text, and the partial line after them. *)
Definition complete_lines (text : jsstring) : list jsstring := (pop (split 10 text)).2.
Definition partial_line (text : jsstring) : jsstring := or_empty (pop (split 10 text)).1.

(** The same, read off the text from left to right. *)
Fixpoint lines_rest (text : jsstring) : list jsstring * jsstring :=
  match text with
  | [] => ([], [])
  | c :: text' =>
      let '(ls, r) := lines_rest text' in
      if c =? 10 then ([] :: ls, r)
      else match ls with
           | [] => ([], c :: r)
           | l :: ls' => ((c :: l) :: ls', r)
           end
  end.

(** A text is its lines, each closed by a line feed, followed by the
    partial line; none of them holds a line feed. *)
Definition no_line_feed (s : jsstring) : bool := forallb (fun c => negb (c =? 10)) s.

Definition unlines (ls : list jsstring) : jsstring :=
  concat (map (fun l => l ++ [10]) ls).

(** The event record of a line: the line is not blank and parses. *)
Definition event_of (line : jsstring) : option jsval :=
  if blank line then None
  else match JSON_parse line with
       | Return event => Some event
       | Throw _ => None
       end.

Definition type_is (event : jsval) (name : string) : bool :=
  match get event (lit "type") with
  | Some type => is_str type name
  | None => false
  end.

(** The [tool_call] records among lines, in order. *)
Definition tool_call_of (line : jsstring) : option ToolCallRecord :=
  event ← event_of line;
  if type_is event "tool_call"
  then Some (ToolCall (prop event "tool") (prop event "arguments"))
  else None.

Definition tool_calls_of (lines : list jsstring) : list ToolCallRecord :=
  omap tool_call_of lines.

(** The console entry of the inner [catch]. *)
Definition parse_error_log (e : jserror) (line : jsstring) : effect :=
  ConsoleError (lit "Error parsing event:") [LogError e; LogText line].

(** The observers a sequence of [onMessage] calls registers. *)
Definition register (this : MCPIntegration) (cbs : list callback) : MCPIntegration :=
  foldl onMessage this cbs.

(** The part of a trace that is calls of callbacks. *)
Definition invoked (t : trace) : list (callback * Notification) :=
  omap (fun e => match e with Invoke cb data => Some (cb, data) | _ => None end) t.

Definition fetched (t : trace) : list Request :=
  omap (fun e => match e with Fetch req => Some req | _ => None end) t.

Definition notified (t : trace) : list Notification :=
  omap (fun e => match e with Notify data => Some data | _ => None end) t.

(** The observers a notification reaches: each in turn, up to and with
    the first that throws. *)
Definition returns (σ : store) (data : Notification) (cb : callback) : bool :=
  match cb with
  | Fn f => match f σ data with Return _ => true | Throw _ => false end
  | Val _ => false
  end.

Fixpoint until_throw (σ : store) (data : Notification) (cbs : list callback)
    : list callback :=
  match cbs with
  | [] => []
  | cb :: rest => if returns σ data cb then cb :: until_throw σ data rest else [cb]
  end.

(** The liveness checks among requests. *)
Definition is_health_check (req : Request) : bool :=
  match method req with GET => true | _ => false end.

Definition health_checks (t : trace) : nat :=
  length (List.filter is_health_check (fetched t)).

(** An effect that is not the call of something other than a function. *)
Definition calls_function (e : effect) : bool :=
  match e with
  | Invoke cb _ => is_function cb
  | _ => true
  end.

(** The array of observers holds functions only, and nothing but a
    function has been called. *)
Definition functions_only (s : System) : Prop :=
  forallb is_function (messageCallbacks (client s)) = true
  /\ forallb calls_function (log s) = true.

(** No handle was ever stored in [eventSource], and none was closed. *)
Definition never_closes (s : System) : Prop :=
  eventSource (client s) = None /\ closes (log s) = [].

(** Every waiting consumer belongs to an exchange whose array exists. *)
Definition consumers_have_arrays (s : System) : Prop :=
  dom (consumers s) ⊆ dom (arrays s).

End Page.

(** ** Sample data: a page with its observers, and what the server sends *)

Module Sample.

(** An observer that returns, and one that throws. *)
Definition quiet : observer := fun _ _ => Return ().
Definition faulty : observer := fun _ _ => Throw (Err "Error" (lit "observer failed")).

Definition draw : jsstring := lit "0.4fzyo82mvyr".
Definition redraw : jsstring := lit "0.k3x9q0d7t1a".

Definition ok200 : FetchOutcome := Resolves {| status := 200; has_body := true |}.
Definition error500 : FetchOutcome := Resolves {| status := 500; has_body := true |}.
Definition offline : FetchOutcome := Rejects (Err "TypeError" (lit "Failed to fetch")).

(** A new client, and the same once connected with one observer. *)
Definition fresh_client : MCPIntegration := constructor draw.
Definition listening : MCPIntegration :=
  set_connected true (register fresh_client [Fn quiet]).

(** The store once an exchange with array [0] has started. *)
Definition one_exchange : store := {[ 0%nat := [] ]}.

Definition content_line : jsstring := quoted "{'type':'content','content':'Hi'}".
Definition tool_line : jsstring :=
  quoted "{'type':'tool_call','tool':'search','arguments':{'q':'x'}}".
Definition final_line : jsstring := quoted "{'type':'final','content':'Hi there'}".
Definition second_tool_line : jsstring :=
  quoted "{'type':'tool_call','tool':'fetch','arguments':{'u':'y'}}".
Definition second_final_line : jsstring := quoted "{'type':'final','content':'Bye'}".
Definition broken_line : jsstring := quoted "{'type':'content','content':".

Definition final_event : jsval :=
  JObject [(lit "type", JString (lit "final")); (lit "content", JString (lit "Hi there"))].
Definition second_final_event : jsval :=
  JObject [(lit "type", JString (lit "final")); (lit "content", JString (lit "Bye"))].

Definition search_call : ToolCallRecord :=
  ToolCall (JString (lit "search")) (JObject [(lit "q", JString (lit "x"))]).
Definition fetch_call : ToolCallRecord :=
  ToolCall (JString (lit "fetch")) (JObject [(lit "u", JString (lit "y"))]).

(** The scenario of the specification, cut in the middle of a record. *)
Definition scenario : jsstring := unlines [content_line; tool_line; final_line].
Definition scenario_chunks : list (list byte) :=
  [bytes_of (take 50 scenario); bytes_of (drop 50 scenario)].

(** A stream with a line that is not JSON between two that are. *)
Definition damaged : jsstring := unlines [content_line; broken_line; final_line].

(** A stream with two [final] records. *)
Definition two_finals : jsstring :=
  unlines [tool_line; final_line; second_tool_line; second_final_line].

(** Two messages sent one after the other, then a chunk on each of the
    two response streams. *)
Definition two_messages : list Input :=
  [CallOnMessage (Fn quiet);
   CallConnect ok200;
   CallSendMessage (lit "first question") ok200 ok200;
   CallSendMessage (lit "second question") ok200 ok200].

Definition two_streams : list Input :=
  two_messages ++
  [Read 0%nat (Chunk (bytes_of (unlines [content_line])));
   Read 1%nat (Chunk (bytes_of (unlines [final_line])))].

End Sample.

(** ** Further notions: outcomes of the calls, the wire table, the host page *)

Section Further.
Context `{platform : Platform}.

(** The liveness check succeeded: a response with a status from 200 to 299. *)
Definition health_ok (health : FetchOutcome) : bool :=
  match health with
  | Resolves response => ok response
  | Rejects _ => false
  end.

(** The error a chat request ends with, if it does: the rejection of
    [fetch], or the [Error] made for a status that is not from 200 to 299. *)
Definition chat_failure (chat : FetchOutcome) : option jserror :=
  match chat with
  | Rejects e => Some e
  | Resolves response =>
      if ok response then None
      else Some (Err "Error" (lit "API error: " ++ decimal (status response)))
  end.

(** The notification of the catch of [sendMessage]. *)
Definition send_error_notification (e : jserror) : Notification :=
  error (JString (lit "Failed to send message: " ++ err_message e)).

(** The notification of the catch of [processStream]. *)
Definition stream_error_notification (e : jserror) : Notification :=
  error (JString (lit "Stream error: " ++ err_message e)).

(** The table of event records: the notification a line stands for, if
    any, in the exchange whose array is [toolCalls]. *)
Definition notification_of (toolCalls : array_ref) (line : jsstring)
    : option Notification :=
  event ← event_of line;
  if type_is event "content" then Some (update (prop event "content"))
  else if type_is event "tool_call" then
    Some (tool_call (prop event "tool") (prop event "arguments"))
  else if type_is event "tool_result" then Some (tool_result (prop event "result"))
  else if type_is event "final" then Some (final (prop event "content") toolCalls)
  else if type_is event "error" then Some (error (prop event "content"))
  else None.

(** The exception the inner [try] ends with before any observer is
    called: the line does not parse, or it parses to a value without
    properties. *)
Definition parse_failure (line : jsstring) : option jserror :=
  if blank line then None
  else match JSON_parse line with
       | Throw e => Some e
       | Return event =>
           match get event (lit "type") with
           | None => Some (null_read_error (lit "type"))
           | Some _ => None
           end
       end.

Definition parse_failures (lines : list jsstring) : list effect :=
  omap (fun line => e ← parse_failure line; Some (parse_error_log e line)) lines.

(** The console entries of a trace. *)
Definition logged (t : trace) : trace :=
  List.filter (fun e => match e with ConsoleError _ _ => true | _ => false end) t.

(** The records a trace pushes on an array. *)
Definition pushed (r : array_ref) (t : trace) : list ToolCallRecord :=
  omap (fun e => match e with
                 | Push r' rec => if bool_decide (r' = r) then Some rec else None
                 | _ => None
                 end) t.

(** Every observer of the client returns, whatever it is given. *)
Definition observers_return (this : MCPIntegration) : Prop :=
  forall (σ : store) (data : Notification),
    forallb (returns σ data) (messageCallbacks this) = true.

(** The functions given to [onMessage] by a sequence of calls. *)
Definition registered_by (inputs : list Input) : list callback :=
  List.filter is_function
    (omap (fun i => match i with CallOnMessage cb => Some cb | _ => None end) inputs).

(** *** The host page: the end of the script *)

(** What a page keeps under a key of [OPENWEBUI_PROVIDERS]: the provider
    of this script, or one of another. *)
Inductive Provider :=
| McpAgent (name : jsstring)
| Foreign (v : jsval).

(** A value that is not an object. *)
Inductive primitive :=
| PUndefined
| PNull
| PBool (b : bool)
| PNumber (literal : jsstring)
| PString (s : jsstring).

Definition value_of_primitive (p : primitive) : jsval :=
  match p with
  | PUndefined => JUndefined
  | PNull => JNull
  | PBool b => JBool b
  | PNumber l => JNumber l
  | PString s => JString s
  end.

(** [window.OPENWEBUI_PROVIDERS]: a primitive ([undefined] when the page
    has none), or an object, known by its own properties. *)
Inductive Registry :=
| NotAnObject (p : primitive)
| Providers (entries : gmap (list N) Provider).

(** The globals the script reads and writes. *)
Record Window := {
  mcpIntegration : option MCPIntegration;
  OPENWEBUI_CONFIG : jsval;
  OPENWEBUI_PROVIDERS : Registry
}.

Inductive ConsoleEntry :=
| ConsoleLog (text : jsstring)
| ConsoleWarn (text : jsstring).

(** [window.OPENWEBUI_PROVIDERS = window.OPENWEBUI_PROVIDERS || {}], then
    [window.OPENWEBUI_PROVIDERS.mcp = ...].  The script has no strict-mode
    directive: on a primitive that [||] keeps, the assignment to its
    property does nothing. *)
Definition register_mcp (registry : Registry) : Registry :=
  let mcp := McpAgent (lit "MCP Agent") in
  match registry with
  | NotAnObject p =>
      if truthy (value_of_primitive p) then NotAnObject p
      else Providers (<[lit "mcp" := mcp]> ∅)
  | Providers entries => Providers (<[lit "mcp" := mcp]> entries)
  end.

(** The body of the script after the class: the client is made, and the
    provider is registered when the page has a configuration. *)
Definition load (window : Window) (random36 : jsstring) : Window * list ConsoleEntry :=
  let integration := constructor random36 in
  if truthy (OPENWEBUI_CONFIG window) then
    ({| mcpIntegration := Some integration;
        OPENWEBUI_CONFIG := OPENWEBUI_CONFIG window;
        OPENWEBUI_PROVIDERS := register_mcp (OPENWEBUI_PROVIDERS window) |},
     [ConsoleLog (lit "MCP integration loaded successfully")])
  else
    ({| mcpIntegration := Some integration;
        OPENWEBUI_CONFIG := OPENWEBUI_CONFIG window;
        OPENWEBUI_PROVIDERS := OPENWEBUI_PROVIDERS window |},
     [ConsoleWarn (lit "OpenWebUI config not found")]).

(** The three functions of the provider, on the client of the page. *)
Definition provider_init (this : MCPIntegration) (σ : store) (health : FetchOutcome)
    : Call :=
  connect this σ health.

Definition provider_sendMessage (this : MCPIntegration) (σ : store)
    (model : jsval) (message : jsstring) (options : jsval)
    (health chat : FetchOutcome) : Call :=
  sendMessage this σ message health chat.

Definition provider_cleanup (this : MCPIntegration) (σ : store)
    (deleted : FetchOutcome) (random36 : jsstring) : Call :=
  endSession this σ deleted random36.

End Further.

(** More sample data. *)
Module Cases.
Import Sample.

Definition error404 : FetchOutcome := Resolves {| status := 404; has_body := true |}.

(** A connected client whose first observer throws. *)
Definition heckled : MCPIntegration :=
  set_connected true (register fresh_client [Fn faulty; Fn quiet]).

Definition result_line : jsstring := quoted "{'type':'tool_result','result':[1,2]}".
Definition error_line : jsstring := quoted "{'type':'error','content':'boom'}".
Definition unknown_line : jsstring := quoted "{'type':'ping'}".
Definition number_line : jsstring := lit "42".
Definition null_line : jsstring := lit "null".
Definition blank_line : jsstring := lit "  ".

(** A stream whose last record has no line feed after it. *)
Definition unterminated : jsstring := unlines [content_line] ++ final_line.

Definition mixed : list jsstring :=
  [content_line; blank_line; broken_line; unknown_line; null_line; number_line;
   tool_line; result_line; error_line; final_line].

Definition dropped : jserror := Err "TypeError" (lit "network error").

(** A page with a configuration and the provider of another script. *)
Definition host_page : Window :=
  {| mcpIntegration := None;
     OPENWEBUI_CONFIG := JObject [];
     OPENWEBUI_PROVIDERS :=
       Providers {[ lit "openai" := Foreign (JString (lit "OpenAI")) ]} |}.

End Cases.

(** * Properties *)

(** ** Lines of a text *)

Section Lines.

Lemma or_empty_Some (s : jsstring) : or_empty (Some s) = s.
Proof. by destruct s. Qed.

Lemma split_lines_rest (text : jsstring) :
  split 10 text = (lines_rest text).1 ++ [(lines_rest text).2].
Proof.
  induction text as [|c text IH]; [done|].
  cbn [split lines_rest]. destruct (lines_rest text) as [ls r].
  simpl in IH. rewrite IH. destruct (c =? 10); [done|].
  by destruct ls.
Qed.

Lemma pop_snoc {A} (l : list A) (x : A) : pop (l ++ [x]) = (Some x, l).
Proof. unfold pop. by rewrite last_snoc, removelast_last. Qed.

Lemma pop_split (text : jsstring) :
  pop (split 10 text) = (Some (lines_rest text).2, (lines_rest text).1).
Proof. by rewrite split_lines_rest, pop_snoc. Qed.

Lemma complete_lines_eq (text : jsstring) : complete_lines text = (lines_rest text).1.
Proof. unfold complete_lines. by rewrite pop_split. Qed.

Lemma partial_line_eq (text : jsstring) : partial_line text = (lines_rest text).2.
Proof. unfold partial_line. rewrite pop_split. apply or_empty_Some. Qed.

(** Reading [a ++ b]: the lines of [a], then the lines of what [a] left
    open followed by [b]. *)
Lemma lines_rest_app (a b : jsstring) :
  lines_rest (a ++ b) =
    ((lines_rest a).1 ++ (lines_rest ((lines_rest a).2 ++ b)).1,
     (lines_rest ((lines_rest a).2 ++ b)).2).
Proof.
  induction a as [|c a IH]; simpl.
  { by destruct (lines_rest b). }
  rewrite IH. destruct (lines_rest a) as [la ra]. simpl.
  destruct (c =? 10) eqn:Hc; simpl; [done|].
  destruct la as [|l la]; simpl; [|done].
  rewrite Hc. by destruct (lines_rest (ra ++ b)) as [[|??] ?].
Qed.

Lemma lines_rest_spec (text : jsstring) :
  text = unlines (lines_rest text).1 ++ (lines_rest text).2
  /\ forallb no_line_feed (lines_rest text).1 = true
  /\ no_line_feed (lines_rest text).2 = true.
Proof.
  induction text as [|c text (IH1 & IH2 & IH3)]; [done|].
  simpl. destruct (lines_rest text) as [ls r]. simpl in *.
  destruct (c =? 10) eqn:Hc; simpl.
  - apply N.eqb_eq in Hc. subst c. split; [by f_equal|done].
  - destruct ls as [|l ls]; simpl in *.
    + rewrite Hc. split; [by f_equal|done].
    + rewrite Hc. simpl. split; [by f_equal|done].
Qed.

End Lines.

(** ** The stream consumer *)

Section Stream.
Context `{platform : Platform}.
Implicit Types (this : MCPIntegration) (σ : store) (toolCalls : array_ref).

Lemma lines_rest_no_line_feed (s : jsstring) :
  no_line_feed s = true -> lines_rest s = ([], s).
Proof.
  induction s as [|c s IH]; [done|]. simpl.
  intros [Hc Hs]%andb_prop. rewrite (IH Hs).
  by destruct (c =? 10).
Qed.

Lemma decode_app (d : decoder_state) (a b : list byte) :
  decode d (a ++ b) =
    ((decode (decode d a).1 b).1, (decode d a).2 ++ (decode (decode d a).1 b).2).
Proof.
  revert d. induction a as [|x a IH]; intros d; simpl.
  { by destruct (decode d b). }
  destruct (decode_byte d x) as [d1 s1]. rewrite IH.
  destruct (decode d1 a) as [d2 s2]. simpl.
  destruct (decode d2 b) as [d3 s3]. simpl. by rewrite (assoc_L (++)).
Qed.

Lemma for_lines_app this σ toolCalls (a b : list jsstring) :
  for_lines this σ toolCalls (a ++ b) =
    ((for_lines this (for_lines this σ toolCalls a).1 toolCalls b).1,
     (for_lines this σ toolCalls a).2
       ++ (for_lines this (for_lines this σ toolCalls a).1 toolCalls b).2).
Proof.
  revert σ. induction a as [|l a IH]; intros σ; simpl.
  { by destruct (for_lines this σ toolCalls b). }
  destruct (for_line this σ toolCalls l) as [σ1 t1]. rewrite IH.
  destruct (for_lines this σ1 toolCalls a) as [σ2 t2]. simpl.
  destruct (for_lines this σ2 toolCalls b) as [σ3 t3]. simpl.
  by rewrite (assoc_L (++)).
Qed.

(** One turn of the loop: the lines of the buffer extended by the decoded
    chunk are processed, what follows the last line feed is kept. *)
Lemma on_chunk_lines this σ toolCalls (loc : Locals) (value : list byte) :
  on_chunk this σ toolCalls loc value =
    let dt := decode (decoder loc) value in
    let lr := lines_rest (receivedText loc ++ dt.2) in
    let st := for_lines this σ toolCalls lr.1 in
    (st.1, {| decoder := dt.1; receivedText := lr.2 |}, st.2).
Proof.
  unfold on_chunk. destruct (decode (decoder loc) value) as [d text].
  cbn [fst snd]. rewrite pop_split, or_empty_Some.
  by destruct (for_lines _ _ _ _).
Qed.

(** A whole run of chunks: the lines of the decoded text are processed in
    order, whatever the chunks were. *)
Lemma processStream_lines this σ toolCalls (loc : Locals)
    (chunks : list (list byte)) (tail : list ReadResult) :
  no_line_feed (receivedText loc) = true ->
  processStream this σ toolCalls loc (map Chunk chunks ++ tail) =
    let dt := decode (decoder loc) (concat chunks) in
    let lr := lines_rest (receivedText loc ++ dt.2) in
    let st := for_lines this σ toolCalls lr.1 in
    let fin :=
      processStream this st.1 toolCalls {| decoder := dt.1; receivedText := lr.2 |} tail in
    (fin.1.1, st.2 ++ fin.1.2, fin.2).
Proof.
  revert σ loc. induction chunks as [|v vs IH]; intros σ loc Hbuf.
  - simpl. rewrite (right_id_L [] (++)), (lines_rest_no_line_feed _ Hbuf). simpl.
    destruct loc as [d buf]. simpl.
    by destruct (processStream _ _ _ _ _) as [[??]?].
  - cbn [map app concat]. cbv zeta.
    rewrite decode_app. cbn [fst snd].
    rewrite (assoc_L (++) (receivedText loc)), lines_rest_app. cbn [fst snd].
    rewrite for_lines_app. cbn [fst snd].
    cbn [processStream]. rewrite on_chunk_lines. cbv beta iota zeta.
    rewrite IH by apply lines_rest_spec.
    cbn [fst snd decoder receivedText].
    by rewrite (assoc_L (++)).
Qed.

End Stream.

(** ** One line of the stream *)

Section Line.
Context `{platform : Platform}.
Implicit Types (this : MCPIntegration) (σ : store) (toolCalls : array_ref).

Lemma is_str_eq (v : jsval) (s : string) :
  is_str v s = true -> v = JString (lit s).
Proof.
  destruct v; try done. unfold is_str, jsstring_eqb.
  intros ->%bool_decide_eq_true. done.
Qed.

Lemma type_is_eq (event : jsval) (name : string) :
  type_is event name = true -> get event (lit "type") = Some (JString (lit name)).
Proof.
  unfold type_is. destruct (get event (lit "type")) as [type|]; [|done].
  by intros ->%is_str_eq.
Qed.

Lemma event_of_Some (line : jsstring) (event : jsval) :
  event_of line = Some event ->
  blank line = false /\ JSON_parse line = Return event.
Proof.
  unfold event_of. destruct (blank line); [done|].
  destruct (JSON_parse line); [|done]. by intros [= ->].
Qed.

Lemma notify_trace this σ data :
  (_notifyCallbacks this σ data).1 = Notify data :: (call_each (messageCallbacks this) σ data).1.
Proof. unfold _notifyCallbacks. by destruct (call_each _ _ _). Qed.

(** A blank line is passed over. *)
Lemma for_line_blank this σ toolCalls line :
  blank line = true -> for_line this σ toolCalls line = (σ, []).
Proof. unfold for_line. by intros ->. Qed.

(** A line that does not parse leaves one entry on the console. *)
Lemma for_line_invalid this σ toolCalls line e :
  blank line = false -> JSON_parse line = Throw e ->
  for_line this σ toolCalls line = (σ, [parse_error_log e line]).
Proof. unfold for_line, try_line. by intros -> ->. Qed.

(** What a line does to the store: a [tool_call] record is pushed,
    nothing else changes. *)
Lemma for_line_store this σ toolCalls line :
  (for_line this σ toolCalls line).1 =
    match tool_call_of line with
    | Some rec => push σ toolCalls rec
    | None => σ
    end.
Proof.
  unfold for_line, tool_call_of, event_of, try_line, type_is.
  destruct (blank line); [done|].
  destruct (JSON_parse line) as [event|e]; [|done]. simpl.
  destruct (get event (lit "type")) as [type|]; [|done].
  destruct (is_str type "content") eqn:H1.
  { apply is_str_eq in H1 as ->.
    change (is_str (JString (lit "content")) "tool_call") with false.
    by destruct (_notifyCallbacks _ _ _) as [? []]. }
  destruct (is_str type "tool_call") eqn:H2.
  { by destruct (_notifyCallbacks _ _ _) as [? []]. }
  destruct (is_str type "tool_result").
  { by destruct (_notifyCallbacks _ _ _) as [? []]. }
  destruct (is_str type "final").
  { by destruct (_notifyCallbacks _ _ _) as [? []]. }
  destruct (is_str type "error"); [|done].
  by destruct (_notifyCallbacks _ _ _) as [? []].
Qed.

(** A [final] record: the observers are called with the [toolCalls]
    array of the exchange, in the store as it is. *)
Lemma for_line_final this σ toolCalls line event :
  event_of line = Some event -> type_is event "final" = true ->
  for_line this σ toolCalls line =
    let sent := _notifyCallbacks this σ (final (prop event "content") toolCalls) in
    (σ, sent.1 ++ match sent.2 with
                  | Return _ => []
                  | Throw e => [parse_error_log e line]
                  end).
Proof.
  intros [Hb Hp]%event_of_Some Ht%type_is_eq.
  unfold for_line, try_line. rewrite Hb, Hp, Ht. simpl.
  destruct (_notifyCallbacks _ _ _) as [t [[]|e]]; simpl; [|done].
  by rewrite (right_id_L [] (++)).
Qed.

Lemma for_lines_store this σ toolCalls lines :
  (for_lines this σ toolCalls lines).1 =
    foldl (fun σ' rec => push σ' toolCalls rec) σ (tool_calls_of lines).
Proof.
  revert σ. induction lines as [|l lines IH]; intros σ; [done|].
  simpl. pose proof (for_line_store this σ toolCalls l) as Hl.
  destruct (for_line this σ toolCalls l) as [σ1 t1]. simpl in Hl. subst σ1.
  specialize (IH (match tool_call_of l with
                  | Some rec => push σ toolCalls rec | None => σ end)).
  destruct (for_lines this _ toolCalls lines) as [σ2 t2]. simpl in *. subst σ2.
  unfold tool_calls_of. simpl. by destruct (tool_call_of l).
Qed.

Lemma foldl_push_lookup σ toolCalls (recs held : list ToolCallRecord) :
  σ !! toolCalls = Some held ->
  foldl (fun σ' rec => push σ' toolCalls rec) σ recs !! toolCalls = Some (held ++ recs).
Proof.
  revert σ held. induction recs as [|rec recs IH]; intros σ held Hσ; simpl.
  { by rewrite (right_id_L [] (++)). }
  rewrite (IH _ (held ++ [rec])).
  - by rewrite <- (assoc_L (++)).
  - unfold push. by rewrite lookup_alter_eq, Hσ.
Qed.

Lemma foldl_push_other σ toolCalls (recs : list ToolCallRecord) (other : array_ref) :
  other <> toolCalls ->
  foldl (fun σ' rec => push σ' toolCalls rec) σ recs !! other = σ !! other.
Proof.
  intros Hne. revert σ. induction recs as [|rec recs IH]; intros σ; simpl; [done|].
  rewrite IH. unfold push. by rewrite lookup_alter_ne.
Qed.

(** The [toolCalls] array after some lines: what it held, then the
    [tool_call] records of the lines, in order. *)
Lemma for_lines_toolCalls this σ toolCalls lines held :
  σ !! toolCalls = Some held ->
  (for_lines this σ toolCalls lines).1 !! toolCalls = Some (held ++ tool_calls_of lines).
Proof. intros Hσ. rewrite for_lines_store. by apply foldl_push_lookup. Qed.

(** The arrays of the other exchanges are not touched. *)
Lemma for_lines_frame this σ toolCalls lines other :
  other <> toolCalls ->
  (for_lines this σ toolCalls lines).1 !! other = σ !! other.
Proof. intros Hne. rewrite for_lines_store. by apply foldl_push_other. Qed.

End Line.

(** ** One exchange: the stream of a response, however it is cut *)

Section Exchange.
Context `{platform : Platform}.
Implicit Types (this : MCPIntegration) (σ : store) (toolCalls : array_ref).

(** From the start of an exchange: the complete lines of the decoded
    text are processed, the partial line waits in the buffer. *)
Lemma processStream_fresh this σ toolCalls
    (chunks : list (list byte)) (tail : list ReadResult) :
  processStream this σ toolCalls fresh_locals (map Chunk chunks ++ tail) =
    let dt := decode decoder_new (concat chunks) in
    let st := for_lines this σ toolCalls (complete_lines dt.2) in
    let fin :=
      processStream this st.1 toolCalls
        {| decoder := dt.1; receivedText := partial_line dt.2 |} tail in
    (fin.1.1, st.2 ++ fin.1.2, fin.2).
Proof.
  rewrite processStream_lines by done. cbv zeta.
  by rewrite complete_lines_eq, partial_line_eq.
Qed.

(** The trace of an exchange up to one of its lines. *)
Lemma processStream_reaches this σ toolCalls chunks tail pre line post :
  complete_lines (decode decoder_new (concat chunks)).2 = pre ++ line :: post ->
  let before := for_lines this σ toolCalls pre in
  let at_line := for_line this before.1 toolCalls line in
  exists rest,
    (processStream this σ toolCalls fresh_locals (map Chunk chunks ++ tail)).1.2
    = before.2 ++ at_line.2 ++ rest.
Proof.
  intros Hlines. rewrite processStream_fresh. cbv zeta. rewrite Hlines.
  rewrite for_lines_app. cbn [fst snd for_lines].
  destruct (for_lines this σ toolCalls pre) as [σ1 t1]. cbn [fst snd].
  destruct (for_line this σ1 toolCalls line) as [σ2 t2]. cbn [fst snd].
  destruct (for_lines this σ2 toolCalls post) as [σ3 t3]. cbn [fst snd].
  eexists. by rewrite <- !(assoc_L (++)).
Qed.

(** C4. Chunk-boundary invariance: the bytes of a response, cut into
    chunks at any places, leave the same store, the same trace (every
    notification to every observer, every console entry) and the same
    task as the same bytes arriving in one chunk.  In each turn of the
    loop only the complete lines of the buffered text followed by the
    decoded chunk are parsed; the partial line after the last line feed is
    kept in the buffer for the next chunk. *)
Theorem chunk_boundary_invariance this σ toolCalls
    (chunks : list (list byte)) (tail : list ReadResult)
    (loc : Locals) (value : list byte) :
  processStream this σ toolCalls fresh_locals (map Chunk chunks ++ tail)
  = processStream this σ toolCalls fresh_locals (Chunk (concat chunks) :: tail)
  /\ let text := receivedText loc ++ (decode (decoder loc) value).2 in
     on_chunk this σ toolCalls loc value
     = ((for_lines this σ toolCalls (complete_lines text)).1,
        {| decoder := (decode (decoder loc) value).1;
           receivedText := partial_line text |},
        (for_lines this σ toolCalls (complete_lines text)).2)
     /\ text = unlines (complete_lines text) ++ partial_line text
     /\ forallb no_line_feed (complete_lines text) = true
     /\ no_line_feed (partial_line text) = true.
Proof.
  split.
  - rewrite processStream_fresh.
    change (Chunk (concat chunks) :: tail) with (map Chunk [concat chunks] ++ tail).
    rewrite processStream_fresh. cbn [concat]. by rewrite (right_id_L [] (++)).
  - cbv zeta. rewrite on_chunk_lines, complete_lines_eq, partial_line_eq.
    split; [done|]. apply lines_rest_spec.
Qed.

(** C6. A line that is not valid JSON, wherever the chunks are cut: the
    stream leaves one entry on the console for it and nothing else, the
    lines after it are processed as they would be without it, and the
    loop goes on with the reads that follow. *)
Theorem invalid_json_line_skipped this σ toolCalls chunks tail pre bad post e :
  complete_lines (decode decoder_new (concat chunks)).2 = pre ++ bad :: post ->
  blank bad = false ->
  JSON_parse bad = Throw e ->
  let dt := decode decoder_new (concat chunks) in
  let before := for_lines this σ toolCalls pre in
  let later := for_lines this before.1 toolCalls post in
  let fin :=
    processStream this later.1 toolCalls
      {| decoder := dt.1; receivedText := partial_line dt.2 |} tail in
  processStream this σ toolCalls fresh_locals (map Chunk chunks ++ tail)
  = (fin.1.1, before.2 ++ parse_error_log e bad :: later.2 ++ fin.1.2, fin.2).
Proof.
  intros Hlines Hb Hp. rewrite processStream_fresh. cbv zeta. rewrite Hlines.
  rewrite for_lines_app. cbn [fst snd for_lines].
  rewrite (for_line_invalid _ _ _ _ e Hb Hp).
  destruct (for_lines this σ toolCalls pre) as [σ1 t1]. cbn [fst snd].
  destruct (for_lines this σ1 toolCalls post) as [σ2 t2]. cbn [fst snd].
  by rewrite <- !(assoc_L (++)).
Qed.

(** C5. In an exchange that starts with an empty [toolCalls] array, when
    a [final] record is reached the observers are called with the
    [toolCalls] array of the exchange, and at that moment the array holds,
    in order, exactly the [tool_call] records of the lines before it
    (none when there was no such line). *)
Theorem final_carries_tool_calls this σ toolCalls chunks tail pre line post event :
  σ !! toolCalls = Some [] ->
  complete_lines (decode decoder_new (concat chunks)).2 = pre ++ line :: post ->
  event_of line = Some event ->
  type_is event "final" = true ->
  let before := for_lines this σ toolCalls pre in
  let sent := _notifyCallbacks this before.1 (final (prop event "content") toolCalls) in
  before.1 !! toolCalls = Some (tool_calls_of pre)
  /\ sent.1 = Notify (final (prop event "content") toolCalls)
                :: (call_each (messageCallbacks this) before.1
                      (final (prop event "content") toolCalls)).1
  /\ exists rest,
       (processStream this σ toolCalls fresh_locals (map Chunk chunks ++ tail)).1.2
       = before.2 ++ sent.1 ++ rest.
Proof.
  intros Hσ Hlines He Ht. cbv zeta. split; [|split].
  - by rewrite (for_lines_toolCalls _ _ _ _ [] Hσ).
  - apply notify_trace.
  - destruct (processStream_reaches this σ toolCalls chunks tail _ _ _ Hlines)
      as [rest Hrest].
    rewrite Hrest, (for_line_final _ _ _ _ _ He Ht). cbn [fst snd].
    eexists. by rewrite <- !(assoc_L (++)).
Qed.

(** C9. A [final] record leaves the [toolCalls] array as it is: when the
    stream of an exchange holds a second [final] record, the array its
    notification carries holds the [tool_call] records of all the lines
    since the start of the exchange, those before the first [final]
    record too. *)
Theorem accumulator_survives_final this σ toolCalls chunks tail
    l1 f1 l2 f2 post e1 e2 :
  σ !! toolCalls = Some [] ->
  complete_lines (decode decoder_new (concat chunks)).2
    = l1 ++ f1 :: l2 ++ f2 :: post ->
  event_of f1 = Some e1 -> type_is e1 "final" = true ->
  event_of f2 = Some e2 -> type_is e2 "final" = true ->
  let s1 := for_lines this σ toolCalls l1 in
  let s2 := for_line this s1.1 toolCalls f1 in
  let s3 := for_lines this s2.1 toolCalls l2 in
  let sent := _notifyCallbacks this s3.1 (final (prop e2 "content") toolCalls) in
  s2.1 = s1.1
  /\ s3.1 !! toolCalls = Some (tool_calls_of l1 ++ tool_calls_of l2)
  /\ exists rest,
       (processStream this σ toolCalls fresh_locals (map Chunk chunks ++ tail)).1.2
       = s1.2 ++ s2.2 ++ s3.2 ++ sent.1 ++ rest.
Proof.
  intros Hσ Hlines He1 Ht1 He2 Ht2. cbv zeta.
  assert (Hf1 : (for_line this (for_lines this σ toolCalls l1).1 toolCalls f1).1
                = (for_lines this σ toolCalls l1).1).
  { by rewrite (for_line_final _ _ _ _ _ He1 Ht1). }
  split; [done|]. split.
  - rewrite Hf1. apply for_lines_toolCalls.
    by rewrite (for_lines_toolCalls _ _ _ _ [] Hσ).
  - change (l1 ++ f1 :: l2 ++ f2 :: post)
      with (l1 ++ (f1 :: l2) ++ f2 :: post) in Hlines.
    rewrite (assoc_L (++)) in Hlines.
    destruct (processStream_reaches this σ toolCalls chunks tail _ _ _ Hlines)
      as [rest Hrest].
    rewrite Hrest, for_lines_app. cbn [fst snd for_lines].
    destruct (for_lines this σ toolCalls l1) as [σ1 t1]. cbn [fst snd] in *.
    destruct (for_line this σ1 toolCalls f1) as [σ2 t2]. cbn [fst snd] in *.
    destruct (for_lines this σ2 toolCalls l2) as [σ3 t3]. cbn [fst snd].
    rewrite (for_line_final _ _ _ _ _ He2 Ht2). cbn [fst snd].
    eexists. by rewrite <- !(assoc_L (++)).
Qed.

(** The array is shared: the one a [final] notification carried goes on
    growing with the [tool_call] records that come after it. *)
Remark final_array_grows this σ toolCalls pre line post event :
  σ !! toolCalls = Some [] ->
  event_of line = Some event -> type_is event "final" = true ->
  (for_lines this σ toolCalls (pre ++ line :: post)).1 !! toolCalls
  = Some (tool_calls_of pre ++ tool_calls_of post).
Proof.
  intros Hσ He Ht. rewrite (for_lines_toolCalls _ _ _ _ [] Hσ).
  unfold tool_calls_of. rewrite omap_app. simpl.
  unfold tool_call_of at 2. rewrite He. simpl.
  apply type_is_eq in Ht. unfold type_is. rewrite Ht.
  by change (is_str (JString (lit "final")) "tool_call") with false.
Qed.

End Exchange.

(** ** The exchange theorems on the sample streams *)

Section ExchangeSamples.
Import Sample.

(** The scenario of the specification, cut in the middle of the second
    record: when the [final] record is reached, the array holds the one
    [tool_call] record. *)
Lemma final_carries_tool_calls_witness :
  (for_lines (platform := browser) listening one_exchange 0%nat
     [content_line; tool_line]).1 !! 0%nat = Some [search_call]
  /\ notified (processStream (platform := browser) listening one_exchange 0%nat
                 fresh_locals (map Chunk scenario_chunks ++ [Done])).1.2
     = [update (JString (lit "Hi"));
        tool_call (JString (lit "search")) (JObject [(lit "q", JString (lit "x"))]);
        final (JString (lit "Hi there")) 0%nat].
Proof.
  destruct (final_carries_tool_calls (platform := browser) listening one_exchange
              0%nat scenario_chunks [Done] [content_line; tool_line] final_line []
              final_event)
    as (Harray & _ & rest & Htrace);
    [vm_compute; reflexivity ..|].
  split.
  - etrans; [exact Harray|]. vm_compute. reflexivity.
  - vm_compute. reflexivity.
Defined.

(** A broken line between two records: one console entry, and the
    record after it is delivered. *)
Lemma invalid_json_line_skipped_witness :
  (processStream (platform := browser) listening one_exchange 0%nat fresh_locals
     (map Chunk [bytes_of damaged] ++ [Done])).1.2
  = [Notify (update (JString (lit "Hi")));
     Invoke (Fn quiet) (update (JString (lit "Hi")));
     parse_error_log Json.syntax_error broken_line;
     Notify (final (JString (lit "Hi there")) 0%nat);
     Invoke (Fn quiet) (final (JString (lit "Hi there")) 0%nat)].
Proof.
  rewrite (invalid_json_line_skipped (platform := browser) listening one_exchange
             0%nat [bytes_of damaged] [Done] [content_line] broken_line [final_line]
             Json.syntax_error)
    by (vm_compute; reflexivity).
  vm_compute. reflexivity.
Defined.

(** Two [final] records: the second carries both [tool_call] records. *)
Lemma accumulator_survives_final_witness :
  (for_lines (platform := browser) listening
     (for_line (platform := browser) listening
        (for_lines (platform := browser) listening one_exchange 0%nat [tool_line]).1
        0%nat final_line).1
     0%nat [second_tool_line]).1 !! 0%nat
  = Some [search_call; fetch_call].
Proof.
  destruct (accumulator_survives_final (platform := browser) listening one_exchange
              0%nat [bytes_of two_finals] [Done]
              [tool_line] final_line [second_tool_line] second_final_line []
              final_event second_final_event)
    as (_ & Harray & _);
    [vm_compute; reflexivity ..|].
  etrans; [exact Harray|]. vm_compute. reflexivity.
Defined.

End ExchangeSamples.

(** ** Observers *)

Section Observers.
Context `{platform : Platform}.
Implicit Types (this : MCPIntegration) (σ : store) (cbs : list callback).

Lemma register_callbacks this cbs :
  messageCallbacks (register this cbs)
  = messageCallbacks this ++ List.filter is_function cbs.
Proof.
  revert this. induction cbs as [|cb cbs IH]; intros this; simpl.
  { by rewrite (right_id_L [] (++)). }
  unfold register in IH. rewrite IH. unfold onMessage.
  destruct (is_function cb); simpl; [|done].
  by rewrite <- (assoc_L (++)).
Qed.

Lemma register_keeps this cbs :
  sessionId (register this cbs) = sessionId this
  /\ connected (register this cbs) = connected this
  /\ eventSource (register this cbs) = eventSource this.
Proof.
  revert this. induction cbs as [|cb cbs IH]; intros this; [done|].
  simpl. destruct (IH (onMessage this cb)) as (-> & -> & ->).
  unfold onMessage. by destruct (is_function cb).
Qed.

(** The loop calls the callbacks in the order of the array and stops
    after the first that throws. *)
Lemma call_each_until_throw cbs σ data :
  invoked (call_each cbs σ data).1
  = map (fun cb => (cb, data)) (until_throw σ data cbs).
Proof.
  induction cbs as [|cb cbs IH]; [done|].
  simpl. destruct cb as [f|v]; simpl; [|done].
  destruct (f σ data) as [[]|e]; simpl; [|done].
  destruct (call_each cbs σ data) as [t c]. simpl in *. by rewrite IH.
Qed.

Lemma until_throw_all cbs σ data :
  forallb (returns σ data) cbs = true -> until_throw σ data cbs = cbs.
Proof.
  induction cbs as [|cb cbs IH]; [done|]. simpl.
  intros [-> Hrest]%andb_prop. by rewrite IH.
Qed.

Lemma call_each_returns cbs σ data :
  forallb (returns σ data) cbs = true -> (call_each cbs σ data).2 = Return ().
Proof.
  induction cbs as [|cb cbs IH]; [done|]. simpl.
  intros [Hcb Hrest]%andb_prop. destruct cb as [f|v]; [|done]. simpl in Hcb.
  destruct (f σ data) as [[]|e]; [|done].
  specialize (IH Hrest). by destruct (call_each cbs σ data).
Qed.

(** When the array holds functions only, nothing else is called. *)
Lemma call_each_functions cbs σ data :
  forallb is_function cbs = true ->
  forallb calls_function (call_each cbs σ data).1 = true.
Proof.
  induction cbs as [|cb cbs IH]; [done|]. simpl.
  intros [Hcb Hrest]%andb_prop. destruct cb as [f|v]; [|done].
  destruct (f σ data) as [[]|e]; [|done].
  specialize (IH Hrest). by destruct (call_each cbs σ data).
Qed.

Lemma notify_functions this σ data :
  forallb is_function (messageCallbacks this) = true ->
  forallb calls_function (_notifyCallbacks this σ data).1 = true.
Proof.
  intros H. rewrite notify_trace. simpl. by apply call_each_functions.
Qed.

(** C8, as amended. The observers registered by any sequence of
    [onMessage] calls on a new client are the functions among the
    arguments, in the order of the calls.  A notification is handed to
    them in that order, up to and with the first that throws on it: the
    observers after that one are not called.  When none of them throws,
    all of them are called and the dispatch returns. *)
Theorem observers_invoked_in_order random36 cbs σ data :
  let this := register (constructor random36) cbs in
  let registered := List.filter is_function cbs in
  let sent := _notifyCallbacks this σ data in
  messageCallbacks this = registered
  /\ invoked sent.1 = map (fun cb => (cb, data)) (until_throw σ data registered)
  /\ (forallb (returns σ data) registered = true ->
      invoked sent.1 = map (fun cb => (cb, data)) registered
      /\ sent.2 = Return ()).
Proof.
  cbv zeta.
  assert (Hreg : messageCallbacks (register (constructor random36) cbs)
                 = List.filter is_function cbs) by apply register_callbacks.
  split; [done|]. unfold _notifyCallbacks. rewrite Hreg.
  pose proof (call_each_until_throw (List.filter is_function cbs) σ data) as Hinv.
  split.
  - by destruct (call_each _ σ data).
  - intros Hall. pose proof (call_each_returns _ _ _ Hall) as Hret.
    rewrite (until_throw_all _ _ _ Hall) in Hinv.
    by destruct (call_each _ σ data).
Qed.

(** What holds whether an observer throws or not: the observers are
    called in order up to and with the first that throws. *)
Lemma dispatch_until_throw this σ data :
  invoked (_notifyCallbacks this σ data).1
  = map (fun cb => (cb, data)) (until_throw σ data (messageCallbacks this)).
Proof. rewrite notify_trace. simpl. apply call_each_until_throw. Qed.

End Observers.

Section ObserverSamples.
Import Sample.

Lemma observers_invoked_in_order_witness :
  invoked (_notifyCallbacks (platform := browser)
             (register (constructor draw) [Fn quiet; Val JNull; Fn quiet])
             one_exchange (update (JString (lit "Hi")))).1
  = [(Fn quiet, update (JString (lit "Hi")));
     (Fn quiet, update (JString (lit "Hi")))].
Proof.
  destruct (observers_invoked_in_order (platform := browser) draw
              [Fn quiet; Val JNull; Fn quiet] one_exchange
              (update (JString (lit "Hi"))))
    as (_ & _ & Hall).
  destruct Hall as [Hinvoked _]; [vm_compute; reflexivity|].
  exact Hinvoked.
Defined.

(** C8, as stated, fails: the observer registered after one that throws
    is not called. *)
Lemma observer_after_throw_not_invoked :
  let this := register (constructor draw) [Fn faulty; Fn quiet] in
  let data := update (JString (lit "Hi")) in
  messageCallbacks this = [Fn faulty; Fn quiet]
  /\ invoked (_notifyCallbacks (platform := browser) this one_exchange data).1
     = [(Fn faulty, data)]
  /\ invoked (_notifyCallbacks (platform := browser) this one_exchange data).1
     <> map (fun cb => (cb, data)) (messageCallbacks this).
Proof. vm_compute. repeat split. discriminate. Qed.

End ObserverSamples.

(** ** The methods *)

Section Methods.
Context `{platform : Platform}.
Implicit Types (this : MCPIntegration) (σ : store).

(** C2. On a connected client [connect] makes no liveness check and has
    no other effect; what it resolves with is [undefined], which is not
    success: it is falsy and it is not [true]. *)
Theorem connect_when_connected this σ health :
  connected this = true ->
  connect this σ health
  = {| after := this; heap := σ; effects := []; settled := Return JUndefined;
       started := None |}
  /\ truthy (value_of (settled (connect this σ health))) = false
  /\ settled (connect this σ health) <> Return (JBool true).
Proof. intros H. unfold connect. rewrite H. by repeat split. Qed.

(** [connect] on a client that is not connected: one liveness check,
    and the answer decides. *)
Lemma connect_when_disconnected this σ health :
  connected this = false ->
  exists more result,
    effects (connect this σ health) = Fetch health_request :: more
    /\ fetched more = [] /\ notified more = [] /\ invoked more = []
    /\ closes more = []
    /\ settled (connect this σ health) = Return (JBool result)
    /\ heap (connect this σ health) = σ
    /\ started (connect this σ health) = None
    /\ after (connect this σ health) = (if result then set_connected true this else this).
Proof.
  intros H. unfold connect. rewrite H.
  destruct health as [response|e].
  - destruct (ok response); simpl.
    + by exists [], true.
    + by eexists [_], false.
  - by eexists [_], false.
Qed.

Lemma fetched_app (a b : trace) : fetched (a ++ b) = fetched a ++ fetched b.
Proof. apply omap_app. Qed.

Lemma fetched_Fetch (req : Request) (t : trace) :
  fetched (Fetch req :: t) = req :: fetched t.
Proof. done. Qed.

Lemma notified_Fetch (req : Request) (t : trace) :
  notified (Fetch req :: t) = notified t.
Proof. done. Qed.

Lemma invoked_Fetch (req : Request) (t : trace) :
  invoked (Fetch req :: t) = invoked t.
Proof. done. Qed.

(** The effects of a dispatch are calls of callbacks only. *)
Lemma notify_no_fetch this σ data :
  fetched (_notifyCallbacks this σ data).1 = []
  /\ closes (_notifyCallbacks this σ data).1 = [].
Proof.
  rewrite notify_trace. simpl.
  generalize (messageCallbacks this). intros cbs.
  induction cbs as [|[f|v] cbs IH]; simpl; [done| |done].
  destruct (f σ data) as [[]|?]; [|done].
  by destruct (call_each cbs σ data).
Qed.

(** What [sendMessage] does once connected: the request is the only
    request, and it is not a liveness check. *)
Lemma send_connected_fetched this σ message chat :
  fetched (effects (send_connected this σ message chat)) = [chat_request this message].
Proof.
  unfold send_connected, send_try.
  assert (Hclose : fetched (close_eventSource this) = []).
  { unfold close_eventSource. by destruct (eventSource this). }
  destruct chat as [response|e]; [destruct (ok response); [destruct (has_body response)|]|];
    cbn [negb effects].
  2-4: match goal with |- context [_notifyCallbacks ?c ?s ?d] =>
         destruct (notify_no_fetch c s d) as [Hn _];
         destruct (_notifyCallbacks c s d) as [tn cn] end; cbn [effects fst] in *.
  all: unfold fetched in *; rewrite !omap_app, Hclose; simpl.
  all: first [done | f_equal; exact Hn].
Qed.

Lemma send_connected_closes this σ message chat :
  eventSource this = None ->
  closes (effects (send_connected this σ message chat)) = [].
Proof.
  intros Hes. unfold send_connected, send_try, close_eventSource. rewrite Hes.
  destruct chat as [response|e]; [destruct (ok response); [destruct (has_body response)|]|];
    cbn [negb effects]; [done|..].
  all: match goal with |- context [_notifyCallbacks ?c ?s ?d] =>
         destruct (notify_no_fetch c s d) as [_ Hn];
         destruct (_notifyCallbacks c s d) as [tn cn] end; cbn [effects fst] in *.
  all: unfold closes in *; simpl; exact Hn.
Qed.

(** C7, as amended. A [sendMessage] call on a client that is not
    connected begins with the liveness check of [connect], the only one
    of the call.  When that check fails the call ends there: it leaves
    the client and the store as they were, makes no other request,
    notifies no observer, starts no stream, and resolves with
    [undefined]. *)
Theorem sendMessage_while_disconnected this σ message health chat :
  connected this = false ->
  let attempt := connect this σ health in
  let call := sendMessage this σ message health chat in
  head (effects call) = Some (Fetch health_request)
  /\ health_checks (effects call) = 1%nat
  /\ match settled attempt with
     | Return (JBool true) =>
         fetched (effects call) = [health_request; chat_request this message]
     | _ =>
         call = {| after := this; heap := σ; effects := effects attempt;
                   settled := Return JUndefined; started := None |}
         /\ fetched (effects call) = [health_request]
         /\ notified (effects call) = []
         /\ invoked (effects call) = []
     end.
Proof.
  intros Hc. cbv zeta. unfold sendMessage. rewrite Hc. cbn [negb].
  destruct (connect_when_disconnected this σ health Hc)
    as (more & result & Heff & Hf & Hn & Hi & Hcl & Hs & Hh & Hst & Ha).
  rewrite Hs. cbn [value_of truthy]. destruct result; cbn [negb effects].
  - rewrite Heff, Ha, Hh. unfold health_checks.
    rewrite fetched_app, fetched_Fetch, Hf, send_connected_fetched.
    by repeat split.
  - rewrite Heff, Ha, Hh. unfold health_checks.
    rewrite fetched_Fetch, notified_Fetch, invoked_Fetch, Hf, Hn, Hi.
    by repeat split.
Qed.


End Methods.

Section MethodSamples.
Import Sample.

Lemma connect_when_connected_witness :
  settled (connect listening one_exchange ok200) = Return JUndefined
  /\ effects (connect listening one_exchange ok200) = [].
Proof.
  destruct (connect_when_connected listening one_exchange ok200) as (H & _ & _);
    [reflexivity|].
  rewrite H. split; reflexivity.
Defined.

(** The scenario of the specification: the liveness check answers 500. *)
Lemma sendMessage_while_disconnected_witness :
  sendMessage (platform := browser) fresh_client ∅ (lit "hello") error500 ok200
  = {| after := fresh_client; heap := ∅;
       effects := [Fetch health_request;
                   ConsoleError (lit "Failed to connect to MCP Agent API") []];
       settled := Return JUndefined; started := None |}.
Proof.
  destruct (sendMessage_while_disconnected (platform := browser) fresh_client ∅
              (lit "hello") error500 ok200)
    as (_ & _ & Hcall); [reflexivity ..|].
  simpl in Hcall. destruct Hcall as [Hcall _]. exact Hcall.
Defined.

(** C7, as stated, fails: what the call resolves with is [undefined],
    not [false]. *)
Lemma sendMessage_resolves_undefined_not_false :
  connected fresh_client = false
  /\ settled (connect fresh_client ∅ error500) = Return (JBool false)
  /\ settled (sendMessage (platform := browser) fresh_client ∅ (lit "hello")
                error500 ok200)
     = Return JUndefined
  /\ settled (sendMessage (platform := browser) fresh_client ∅ (lit "hello")
                error500 ok200)
     <> Return (JBool false).
Proof. repeat split. discriminate. Qed.



End MethodSamples.

(** ** The page as a whole *)

Section Invariants.
Context `{platform : Platform}.
Implicit Types (this : MCPIntegration) (σ : store) (s : System).

Lemma calls_function_app (a b : trace) :
  forallb calls_function a = true -> forallb calls_function b = true ->
  forallb calls_function (a ++ b) = true.
Proof. intros Ha Hb. by rewrite forallb_app, Ha, Hb. Qed.

Lemma closes_app (a b : trace) : closes (a ++ b) = closes a ++ closes b.
Proof. apply omap_app. Qed.

Lemma closes_Push (r : array_ref) (rec : ToolCallRecord) (t : trace) :
  closes (Push r rec :: t) = closes t.
Proof. done. Qed.

(** *** The stream consumer *)

Lemma for_line_functions this σ toolCalls line :
  forallb is_function (messageCallbacks this) = true ->
  forallb calls_function (for_line this σ toolCalls line).2 = true.
Proof.
  intros Hfun. unfold for_line, try_line. destruct (blank line); [done|].
  destruct (JSON_parse line) as [event|e]; [|done].
  destruct (get event (lit "type")) as [type|]; [|done].
  repeat match goal with
         | |- context [if ?b then _ else _] => destruct b
         end.
  all: try done.
  all: match goal with |- context [_notifyCallbacks ?c ?st ?d] =>
         pose proof (notify_functions c st d Hfun) as Hn;
         destruct (_notifyCallbacks c st d) as [t [[]|e]] end; cbn [fst snd] in *.
  all: rewrite ?forallb_app; cbn [forallb calls_function]; try done.
  all: by rewrite Hn.
Qed.

Lemma for_line_closes this σ toolCalls line :
  closes (for_line this σ toolCalls line).2 = [].
Proof.
  unfold for_line, try_line. destruct (blank line); [done|].
  destruct (JSON_parse line) as [event|e]; [|done].
  destruct (get event (lit "type")) as [type|]; [|done].
  repeat match goal with
         | |- context [if ?b then _ else _] => destruct b
         end.
  all: try done.
  all: match goal with |- context [_notifyCallbacks ?c ?st ?d] =>
         destruct (notify_no_fetch c st d) as [_ Hn];
         destruct (_notifyCallbacks c st d) as [t [[]|e]] end; cbn [fst snd] in *.
  all: rewrite ?closes_app, ?closes_Push, ?Hn; done.
Qed.

Lemma for_lines_functions this σ toolCalls lines :
  forallb is_function (messageCallbacks this) = true ->
  forallb calls_function (for_lines this σ toolCalls lines).2 = true.
Proof.
  intros Hfun. revert σ. induction lines as [|l lines IH]; intros σ; [done|].
  simpl. pose proof (for_line_functions this σ toolCalls l Hfun) as Hl.
  destruct (for_line this σ toolCalls l) as [σ1 t1].
  specialize (IH σ1). destruct (for_lines this σ1 toolCalls lines) as [σ2 t2].
  by apply calls_function_app.
Qed.

Lemma for_lines_closes this σ toolCalls lines :
  closes (for_lines this σ toolCalls lines).2 = [].
Proof.
  revert σ. induction lines as [|l lines IH]; intros σ; [done|].
  simpl. pose proof (for_line_closes this σ toolCalls l) as Hl.
  destruct (for_line this σ toolCalls l) as [σ1 t1].
  specialize (IH σ1). destruct (for_lines this σ1 toolCalls lines) as [σ2 t2].
  simpl in *. by rewrite closes_app, Hl, IH.
Qed.

Lemma processStream_functions this σ toolCalls (loc : Locals) reads :
  forallb is_function (messageCallbacks this) = true ->
  forallb calls_function (processStream this σ toolCalls loc reads).1.2 = true.
Proof.
  intros Hfun. revert σ loc.
  induction reads as [|[value| |e] reads IH]; intros σ loc; [done| |done|].
  - cbn [processStream]. rewrite on_chunk_lines. cbv beta iota zeta.
    pose proof (for_lines_functions this σ toolCalls
      (lines_rest (receivedText loc ++ (decode (decoder loc) value).2)).1 Hfun) as Hl.
    specialize (IH (for_lines this σ toolCalls
      (lines_rest (receivedText loc ++ (decode (decoder loc) value).2)).1).1
      {| decoder := (decode (decoder loc) value).1;
         receivedText :=
           (lines_rest (receivedText loc ++ (decode (decoder loc) value).2)).2 |}).
    destruct (processStream _ _ _ _ reads) as [[σ2 t2] task].
    by apply calls_function_app.
  - cbn [processStream]. unfold on_stream_error.
    match goal with |- context [_notifyCallbacks ?c ?st ?d] =>
      pose proof (notify_functions c st d Hfun) as Hn;
      destruct (_notifyCallbacks c st d) as [t c'] end.
    done.
Qed.

Lemma processStream_closes this σ toolCalls (loc : Locals) reads :
  closes (processStream this σ toolCalls loc reads).1.2 = [].
Proof.
  revert σ loc.
  induction reads as [|[value| |e] reads IH]; intros σ loc; [done| |done|].
  - cbn [processStream]. rewrite on_chunk_lines. cbv beta iota zeta.
    pose proof (for_lines_closes this σ toolCalls
      (lines_rest (receivedText loc ++ (decode (decoder loc) value).2)).1) as Hl.
    specialize (IH (for_lines this σ toolCalls
      (lines_rest (receivedText loc ++ (decode (decoder loc) value).2)).1).1
      {| decoder := (decode (decoder loc) value).1;
         receivedText :=
           (lines_rest (receivedText loc ++ (decode (decoder loc) value).2)).2 |}).
    destruct (processStream _ _ _ _ reads) as [[σ2 t2] task].
    cbn [fst snd] in *. by rewrite closes_app, Hl, IH.
  - cbn [processStream]. unfold on_stream_error.
    match goal with |- context [_notifyCallbacks ?c ?st ?d] =>
      destruct (notify_no_fetch c st d) as [_ Hn];
      destruct (_notifyCallbacks c st d) as [t c'] end.
    done.
Qed.

(** *** The methods *)

Lemma connect_preserves this σ health :
  messageCallbacks (after (connect this σ health)) = messageCallbacks this
  /\ eventSource (after (connect this σ health)) = eventSource this
  /\ forallb calls_function (effects (connect this σ health)) = true
  /\ closes (effects (connect this σ health)) = []
  /\ started (connect this σ health) = None
  /\ heap (connect this σ health) = σ.
Proof.
  unfold connect. destruct (connected this); [done|].
  destruct health as [response|e]; [|done]. by destruct (ok response).
Qed.

Lemma send_connected_preserves this σ message chat :
  after (send_connected this σ message chat) = this
  /\ (forallb is_function (messageCallbacks this) = true ->
      forallb calls_function (effects (send_connected this σ message chat)) = true).
Proof.
  unfold send_connected, send_try.
  assert (Hclose : forallb calls_function (close_eventSource this) = true).
  { unfold close_eventSource. by destruct (eventSource this). }
  destruct chat as [response|e]; [destruct (ok response); [destruct (has_body response)|]|];
    cbn [negb effects after].
  1: { split; [done|]. intros _. by rewrite forallb_app, Hclose. }
  all: match goal with |- context [_notifyCallbacks ?c ?st ?d] =>
         pose proof (notify_functions c st d) as Hn;
         destruct (_notifyCallbacks c st d) as [tn cn] end; cbn [after effects fst] in *.
  all: split; [done|]; intros Hfun; rewrite !forallb_app, Hclose; simpl; by apply Hn.
Qed.

Lemma sendMessage_preserves this σ message health chat :
  messageCallbacks (after (sendMessage this σ message health chat))
    = messageCallbacks this
  /\ eventSource (after (sendMessage this σ message health chat)) = eventSource this
  /\ (forallb is_function (messageCallbacks this) = true ->
      forallb calls_function (effects (sendMessage this σ message health chat)) = true)
  /\ (eventSource this = None ->
      closes (effects (sendMessage this σ message health chat)) = []).
Proof.
  unfold sendMessage.
  destruct (connect_preserves this σ health) as (Hcb & Hes & Hfn & Hcl & _ & _).
  destruct (connected this); cbn [negb].
  - destruct (send_connected_preserves this σ message chat) as [-> Hsent].
    repeat split; [done|]. apply send_connected_closes.
  - destruct (negb (truthy _)); cbn [after effects].
    + by repeat split.
    + destruct (send_connected_preserves (after (connect this σ health))
                  (heap (connect this σ health)) message chat) as [-> Hsent].
      rewrite Hcb in Hsent. repeat split; try done.
      * intros Hfun. by rewrite forallb_app, Hfn, Hsent.
      * intros Hnone. rewrite closes_app, Hcl, send_connected_closes; [done|].
        by rewrite Hes.
Qed.

Lemma endSession_preserves this σ deleted random36 :
  messageCallbacks (after (endSession this σ deleted random36)) = messageCallbacks this
  /\ (eventSource this = None ->
      eventSource (after (endSession this σ deleted random36)) = None
      /\ closes (effects (endSession this σ deleted random36)) = [])
  /\ forallb calls_function (effects (endSession this σ deleted random36)) = true
  /\ started (endSession this σ deleted random36) = None.
Proof.
  unfold endSession, close_eventSource.
  destruct (connected this); cbn [negb]; [|done].
  destruct deleted as [response|e]; destruct (eventSource this); by repeat split.
Qed.

(** *** Every step keeps both invariants *)

Lemma step_functions_only s (i : Input) :
  functions_only s -> functions_only (step s i).
Proof.
  intros [Hfun Hlog]. unfold functions_only.
  destruct i as [health|message health chat|cb|deleted random36|exchange res];
    cbn [step after_call client log].
  - destruct (connect_preserves (client s) (arrays s) health) as (-> & _ & Hfn & _).
    by rewrite forallb_app, Hlog, Hfn.
  - destruct (sendMessage_preserves (client s) (arrays s) message health chat)
      as (-> & _ & Hfn & _).
    by rewrite forallb_app, Hlog, Hfn.
  - split; [|done]. unfold onMessage. destruct (is_function cb) eqn:Hcb; [|done].
    cbn [messageCallbacks]. by rewrite forallb_app, Hfun; simpl; rewrite Hcb.
  - destruct (endSession_preserves (client s) (arrays s) deleted random36)
      as (-> & _ & Hfn & _).
    by rewrite forallb_app, Hlog, Hfn.
  - destruct (consumers s !! exchange) as [loc|]; [|done].
    pose proof (processStream_functions (client s) (arrays s) exchange loc [res] Hfun)
      as Hfn.
    destruct (processStream _ _ _ _ _) as [[σ t] task]. cbn [client log fst snd] in *.
    by rewrite forallb_app, Hlog, Hfn.
Qed.

Lemma step_never_closes s (i : Input) :
  never_closes s -> never_closes (step s i).
Proof.
  intros [Hes Hlog]. unfold never_closes.
  destruct i as [health|message health chat|cb|deleted random36|exchange res];
    cbn [step after_call client log].
  - destruct (connect_preserves (client s) (arrays s) health) as (_ & -> & _ & Hcl & _).
    by rewrite closes_app, Hlog, Hcl.
  - destruct (sendMessage_preserves (client s) (arrays s) message health chat)
      as (_ & -> & _ & Hcl).
    by rewrite closes_app, Hlog, Hcl.
  - split; [|done]. unfold onMessage. by destruct (is_function cb).
  - destruct (endSession_preserves (client s) (arrays s) deleted random36)
      as (_ & Hcl & _).
    destruct (Hcl Hes) as [-> Hcl']. by rewrite closes_app, Hlog, Hcl'.
  - destruct (consumers s !! exchange) as [loc|]; [|done].
    pose proof (processStream_closes (client s) (arrays s) exchange loc [res]) as Hcl.
    destruct (processStream _ _ _ _ _) as [[σ t] task]. cbn [client log fst snd] in *.
    by rewrite closes_app, Hlog, Hcl.
Qed.

Lemma run_snoc random36 (inputs : list Input) (i : Input) :
  run random36 (inputs ++ [i]) = step (run random36 inputs) i.
Proof. unfold run. by rewrite foldl_snoc. Qed.

Lemma run_functions_only random36 (inputs : list Input) :
  functions_only (run random36 inputs).
Proof.
  induction inputs as [|i inputs IH] using rev_ind; [done|].
  rewrite run_snoc. by apply step_functions_only.
Qed.

(** [eventSource] is never assigned a handle: whatever is called, in
    whatever order, it stays [null] and nothing is closed. *)
Lemma run_never_closes random36 (inputs : list Input) :
  never_closes (run random36 inputs).
Proof.
  induction inputs as [|i inputs IH] using rev_ind; [done|].
  rewrite run_snoc. by apply step_never_closes.
Qed.

(** C10. [onMessage] given anything but a function returns without
    error and leaves the client as it was; so, whatever calls are made to
    a page and whatever its streams deliver, the array of observers holds
    functions only and nothing but a function is ever called. *)
Theorem observers_are_functions random36 (inputs : list Input) this (v : jsval) :
  onMessage this (Val v) = this
  /\ forallb is_function (messageCallbacks (client (run random36 inputs))) = true
  /\ forallb calls_function (log (run random36 inputs)) = true.
Proof. split; [done|]. apply run_functions_only. Qed.

(** *** Consumers are never ended from outside *)

Lemma push_dom σ (r : array_ref) (rec : ToolCallRecord) : dom (push σ r rec) = dom σ.
Proof. unfold push. apply dom_alter_L. Qed.

Lemma for_lines_dom this σ toolCalls lines :
  dom (for_lines this σ toolCalls lines).1 = dom σ.
Proof.
  rewrite for_lines_store. generalize (tool_calls_of lines). intros recs.
  revert σ. induction recs as [|rec recs IH]; intros σ; [done|].
  simpl. by rewrite IH, push_dom.
Qed.

Lemma processStream_dom this σ toolCalls (loc : Locals) reads :
  dom (processStream this σ toolCalls loc reads).1.1 = dom σ.
Proof.
  revert σ loc.
  induction reads as [|[value| |e] reads IH]; intros σ loc; [done| |done|].
  - cbn [processStream]. rewrite on_chunk_lines. cbv beta iota zeta.
    specialize (IH (for_lines this σ toolCalls
      (lines_rest (receivedText loc ++ (decode (decoder loc) value).2)).1).1
      {| decoder := (decode (decoder loc) value).1;
         receivedText :=
           (lines_rest (receivedText loc ++ (decode (decoder loc) value).2)).2 |}).
    destruct (processStream _ _ _ _ reads) as [[σ2 t2] task].
    cbn [fst snd] in *. by rewrite IH, for_lines_dom.
  - cbn [processStream]. by destruct (on_stream_error this σ e).
Qed.

(** A call that starts an exchange gives it a new, empty array. *)
Lemma sendMessage_heap this σ message health chat :
  match started (sendMessage this σ message health chat) with
  | Some exchange =>
      exchange = fresh (dom σ)
      /\ heap (sendMessage this σ message health chat) = <[exchange := []]> σ
  | None => heap (sendMessage this σ message health chat) = σ
  end.
Proof.
  assert (Hsent : forall c,
    match started (send_connected c σ message chat) with
    | Some exchange =>
        exchange = fresh (dom σ)
        /\ heap (send_connected c σ message chat) = <[exchange := []]> σ
    | None => heap (send_connected c σ message chat) = σ
    end).
  { intros c. unfold send_connected, send_try.
    destruct chat as [response|e];
      [destruct (ok response); [destruct (has_body response)|]|];
      cbn [negb]; [done|..].
    all: by destruct (_notifyCallbacks _ _ _). }
  unfold sendMessage.
  destruct (connect_preserves this σ health) as (_ & _ & _ & _ & _ & Hheap).
  destruct (connected this); cbn [negb]; [apply Hsent|].
  destruct (negb (truthy _)); cbn [started heap]; [done|].
  rewrite Hheap. apply Hsent.
Qed.

(** The exchange a call starts begins with an empty [toolCalls] array. *)
Lemma sendMessage_starts_empty this σ message health chat (exchange : array_ref) :
  started (sendMessage this σ message health chat) = Some exchange ->
  heap (sendMessage this σ message health chat) !! exchange = Some [].
Proof.
  intros Hstarted.
  pose proof (sendMessage_heap this σ message health chat) as Hheap.
  rewrite Hstarted in Hheap. destruct Hheap as [_ ->]. apply lookup_insert_eq.
Qed.

Lemma step_consumers_have_arrays s (i : Input) :
  never_closes s -> consumers_have_arrays s -> consumers_have_arrays (step s i).
Proof.
  intros [Hes Hlog] Hsub. unfold consumers_have_arrays in *.
  destruct i as [health|message health chat|cb|deleted random36|exchange res];
    cbn [step after_call consumers arrays].
  - destruct (connect_preserves (client s) (arrays s) health)
      as (_ & _ & _ & -> & -> & ->). done.
  - destruct (sendMessage_preserves (client s) (arrays s) message health chat)
      as (_ & _ & _ & Hcl).
    rewrite (Hcl Hes). cbn [foldr].
    pose proof (sendMessage_heap (client s) (arrays s) message health chat) as Hheap.
    destruct (started _) as [exchange|].
    + destruct Hheap as [_ ->]. rewrite !dom_insert_L. set_solver.
    + by rewrite Hheap.
  - done.
  - destruct (endSession_preserves (client s) (arrays s) deleted random36)
      as (_ & Hcl & _ & ->).
    destruct (Hcl Hes) as [_ ->].
    unfold endSession. destruct (negb _); [done|]. by destruct deleted.
  - destruct (consumers s !! exchange) as [loc|] eqn:Hloc; [|done].
    pose proof (processStream_dom (client s) (arrays s) exchange loc [res]) as Hdom.
    destruct (processStream _ _ _ _ _) as [[σ t] task].
    cbn [consumers arrays fst snd] in *. rewrite Hdom.
    destruct task; rewrite ?dom_insert_L, ?dom_delete_L; [|set_solver..].
    apply elem_of_dom_2 in Hloc. set_solver.
Qed.

Lemma run_consumers_have_arrays random36 (inputs : list Input) :
  consumers_have_arrays (run random36 inputs).
Proof.
  induction inputs as [|i inputs IH] using rev_ind.
  { unfold consumers_have_arrays. done. }
  rewrite run_snoc. apply step_consumers_have_arrays; [apply run_never_closes|done].
Qed.

(** Wherever the page has come to, a [sendMessage] call that starts an
    exchange ends no consumer: those that were waiting go on waiting, and
    one more waits with them. *)
Lemma sendMessage_adds_consumer random36 (inputs : list Input) message health chat
    (exchange : array_ref) :
  let s := run random36 inputs in
  started (sendMessage (client s) (arrays s) message health chat) = Some exchange ->
  consumers s !! exchange = None
  /\ consumers (step s (CallSendMessage message health chat))
     = <[exchange := fresh_locals]> (consumers s)
  /\ size (consumers (step s (CallSendMessage message health chat)))
     = S (size (consumers s)).
Proof.
  intros s Hstarted.
  destruct (run_never_closes random36 inputs) as [Hes Hlog]. fold s in Hes, Hlog.
  pose proof (run_consumers_have_arrays random36 inputs) as Hsub. fold s in Hsub.
  destruct (sendMessage_preserves (client s) (arrays s) message health chat)
    as (_ & _ & _ & Hcl).
  pose proof (sendMessage_heap (client s) (arrays s) message health chat) as Hheap.
  rewrite Hstarted in Hheap. destruct Hheap as [Hfresh _].
  assert (Hnew : consumers s !! exchange = None).
  { apply not_elem_of_dom. intros Hin. apply Hsub in Hin.
    subst exchange. by apply is_fresh in Hin. }
  assert (Hstep : consumers (step s (CallSendMessage message health chat))
                  = <[exchange := fresh_locals]> (consumers s)).
  { cbn [step after_call consumers]. by rewrite (Hcl Hes), Hstarted. }
  split; [done|]. split; [done|].
  rewrite Hstep. by apply map_size_insert_None.
Qed.

End Invariants.

Section PageSamples.
Import Sample.

(** C1, on the code. No handle is ever stored in [eventSource], so in no
    run of the page is anything closed, and a [sendMessage] call that
    starts an exchange leaves every earlier consumer waiting and adds one.
    On the sample: after two messages sent one after the other the streams
    of both are being consumed, and a chunk arriving on either stream is
    delivered to the observers. *)
Theorem second_message_leaves_first_stream_open :
  (forall (platform : Platform) random36 (inputs : list Input),
     eventSource (client (run random36 inputs)) = None
     /\ closes (log (run random36 inputs)) = [])
  /\ (forall (platform : Platform) random36 (inputs : list Input)
        message health chat (exchange : array_ref),
       started (sendMessage (client (run random36 inputs))
                  (arrays (run random36 inputs)) message health chat)
         = Some exchange ->
       size (consumers (step (run random36 inputs)
                          (CallSendMessage message health chat)))
       = S (size (consumers (run random36 inputs))))
  /\ let sent := run (platform := browser) draw two_messages in
     let read := run (platform := browser) draw two_streams in
     size (consumers sent) = 2%nat
     /\ dom (consumers sent) = {[ 0%nat; 1%nat ]}
     /\ size (consumers read) = 2%nat
     /\ notified (log read)
        = [update (JString (lit "Hi")); final (JString (lit "Hi there")) 1%nat].
Proof.
  split; [|split].
  - intros platform random36 inputs. apply run_never_closes.
  - intros platform random36 inputs message health chat exchange Hstarted.
    by apply (sendMessage_adds_consumer random36 inputs message health chat exchange).
  - vm_compute. by repeat split.
Qed.

End PageSamples.

(** * Further properties of the code *)

(** ** What a stream leaves: notifications, console entries, pushes *)

Section StreamEffects.
Context `{platform : Platform}.
Implicit Types (this : MCPIntegration) (σ : store) (toolCalls : array_ref).

Lemma notified_app (a b : trace) : notified (a ++ b) = notified a ++ notified b.
Proof. apply omap_app. Qed.

Lemma logged_app (a b : trace) : logged (a ++ b) = logged a ++ logged b.
Proof. apply List.filter_app. Qed.

Lemma call_each_quiet (cbs : list callback) σ data :
  notified (call_each cbs σ data).1 = []
  /\ logged (call_each cbs σ data).1 = [].
Proof.
  induction cbs as [|[f|v] cbs IH]; simpl; [done| |done].
  destruct (f σ data) as [[]|?]; [|done].
  by destruct (call_each cbs σ data).
Qed.

(** A dispatch is one notification, and leaves nothing on the console. *)
Lemma notify_effects this σ data :
  notified (_notifyCallbacks this σ data).1 = [data]
  /\ logged (_notifyCallbacks this σ data).1 = [].
Proof.
  rewrite notify_trace.
  destruct (call_each_quiet (messageCallbacks this) σ data) as [Hn Hl].
  split.
  - change (notified (Notify data :: ?t)) with (data :: notified t). by rewrite Hn.
  - exact Hl.
Qed.

Ltac dispatch_cases :=
  repeat match goal with
         | |- context [if is_str ?v ?s then _ else _] => destruct (is_str v s)
         end.

Ltac dispatch_effects :=
  match goal with
  | |- context [_notifyCallbacks ?c ?st ?d] =>
      destruct (notify_effects c st d) as [Hn Hl];
      destruct (_notifyCallbacks c st d) as [t [[]|e]]
  end.

(** The notification of a line is the one of the table, whatever the
    observers do. *)
Lemma for_line_notified this σ toolCalls line :
  notified (for_line this σ toolCalls line).2
  = option_list (notification_of toolCalls line).
Proof.
  unfold for_line, notification_of, event_of, try_line, type_is.
  destruct (blank line); [done|].
  destruct (JSON_parse line) as [event|e]; [|done]. cbn [mbind option_bind].
  destruct (get event (lit "type")) as [type|]; [|done].
  dispatch_cases; try done.
  all: dispatch_effects; cbn [fst snd] in *.
  all: rewrite ?notified_app; cbn [option_list];
    first [exact Hn | by rewrite Hn
          | change (notified (Push ?r ?rec :: ?t)) with (notified t); first [exact Hn | by rewrite Hn]].
Qed.

Lemma for_lines_notified this σ toolCalls lines :
  notified (for_lines this σ toolCalls lines).2 = omap (notification_of toolCalls) lines.
Proof.
  revert σ. induction lines as [|l lines IH]; intros σ; [done|].
  cbn [for_lines]. pose proof (for_line_notified this σ toolCalls l) as Hl.
  destruct (for_line this σ toolCalls l) as [σ1 t1].
  specialize (IH σ1). destruct (for_lines this σ1 toolCalls lines) as [σ2 t2].
  cbn [fst snd] in *. rewrite notified_app, Hl, IH.
  change (omap (notification_of toolCalls) (l :: lines))
    with (match notification_of toolCalls l with
          | Some n => n :: omap (notification_of toolCalls) lines
          | None => omap (notification_of toolCalls) lines
          end).
  by destruct (notification_of toolCalls l).
Qed.

Ltac known_types :=
  repeat match goal with
         | |- context [is_str (JString (lit ?a)) ?b] =>
             let v := eval vm_compute in (is_str (JString (lit a)) b) in
             change (is_str (JString (lit a)) b) with v
         end.

(** One line, by the table: the record of a [tool_call] is pushed, the
    notification is dispatched in the store after the push, and an
    exception of the dispatch goes to the console with the line; a line
    without notification leaves at most the entry of its own failure. *)
Lemma for_line_table this σ toolCalls line :
  for_line this σ toolCalls line =
    match notification_of toolCalls line with
    | Some n =>
        let σ' := match tool_call_of line with
                  | Some rec => push σ toolCalls rec
                  | None => σ
                  end in
        let sent := _notifyCallbacks this σ' n in
        (σ', option_list (Push toolCalls <$> tool_call_of line)
               ++ sent.1
               ++ match sent.2 with
                  | Return _ => []
                  | Throw e => [parse_error_log e line]
                  end)
    | None =>
        (σ, option_list (e ← parse_failure line; Some (parse_error_log e line)))
    end.
Proof.
  unfold for_line, notification_of, tool_call_of, parse_failure, event_of, try_line,
    type_is.
  destruct (blank line); [done|].
  destruct (JSON_parse line) as [event|e]; [|done]. cbn [mbind option_bind].
  destruct (get event (lit "type")) as [type|]; [|done].
  destruct (is_str type "content") eqn:H1.
  { apply is_str_eq in H1 as ->. known_types. cbv zeta. cbn [fmap option_fmap option_map option_list app].
    by destruct (_notifyCallbacks _ _ _) as [t [[]|e]];
      unfold parse_error_log; cbn [fst snd option_list app]; rewrite ?app_nil_r. }
  destruct (is_str type "tool_call") eqn:H2.
  { cbv zeta. cbn [fmap option_fmap option_map option_list app].
    by destruct (_notifyCallbacks _ _ _) as [t [[]|e]];
      unfold parse_error_log; cbn [fst snd option_list app]; rewrite ?app_nil_r. }
  destruct (is_str type "tool_result") eqn:H3.
  { cbv zeta. cbn [fmap option_fmap option_map option_list app].
    by destruct (_notifyCallbacks _ _ _) as [t [[]|e]];
      unfold parse_error_log; cbn [fst snd option_list app]; rewrite ?app_nil_r. }
  destruct (is_str type "final") eqn:H4.
  { cbv zeta. cbn [fmap option_fmap option_map option_list app].
    by destruct (_notifyCallbacks _ _ _) as [t [[]|e]];
      unfold parse_error_log; cbn [fst snd option_list app]; rewrite ?app_nil_r. }
  destruct (is_str type "error") eqn:H5; [|done].
  cbv zeta. cbn [fmap option_fmap option_map option_list app].
  by destruct (_notifyCallbacks _ _ _) as [t [[]|e]];
      unfold parse_error_log; cbn [fst snd option_list app]; rewrite ?app_nil_r.
Qed.

Lemma notify_returns this σ data :
  observers_return this -> (_notifyCallbacks this σ data).2 = Return ().
Proof.
  intros Hret. unfold _notifyCallbacks.
  pose proof (call_each_returns (messageCallbacks this) σ data (Hret σ data)).
  by destruct (call_each _ σ data).
Qed.

(** A line that stands for a notification has no failure of its own. *)
Lemma notification_no_failure toolCalls line n :
  notification_of toolCalls line = Some n -> parse_failure line = None.
Proof.
  unfold notification_of, parse_failure, event_of, type_is.
  destruct (blank line); [done|].
  destruct (JSON_parse line) as [event|e]; [|done]. cbn [mbind option_bind].
  by destruct (get event (lit "type")).
Qed.

Lemma for_line_logged this σ toolCalls line :
  observers_return this ->
  logged (for_line this σ toolCalls line).2
  = option_list (e ← parse_failure line; Some (parse_error_log e line)).
Proof.
  intros Hret. rewrite for_line_table.
  destruct (notification_of toolCalls line) as [n|] eqn:Hn.
  - rewrite (notification_no_failure _ _ _ Hn). cbv zeta. cbn [snd].
    rewrite (notify_returns _ _ _ Hret), !logged_app.
    destruct (notify_effects this
                (match tool_call_of line with
                 | Some rec => push σ toolCalls rec
                 | None => σ
                 end) n) as [_ ->].
    by destruct (tool_call_of line).
  - cbn [snd]. by destruct (parse_failure line).
Qed.

(** With observers that return, the console holds the failures of the
    lines and nothing else. *)
Lemma for_lines_logged this σ toolCalls lines :
  observers_return this ->
  logged (for_lines this σ toolCalls lines).2 = parse_failures lines.
Proof.
  intros Hret. revert σ. induction lines as [|l lines IH]; intros σ; [done|].
  cbn [for_lines]. pose proof (for_line_logged this σ toolCalls l Hret) as Hl.
  destruct (for_line this σ toolCalls l) as [σ1 t1].
  specialize (IH σ1). destruct (for_lines this σ1 toolCalls lines) as [σ2 t2].
  cbn [fst snd] in *. rewrite logged_app, IH, Hl. unfold parse_failures.
  cbn [omap list_omap]. by destruct (parse_failure l).
Qed.

End StreamEffects.

(** ** A stream from its first read to its end *)

Section StreamEnd.
Context `{platform : Platform}.
Implicit Types (this : MCPIntegration) (σ : store) (toolCalls : array_ref).

Lemma pushed_app (r : array_ref) (a b : trace) :
  pushed r (a ++ b) = pushed r a ++ pushed r b.
Proof. apply omap_app. Qed.

Lemma notify_pushed this σ data (r : array_ref) :
  pushed r (_notifyCallbacks this σ data).1 = [].
Proof.
  rewrite notify_trace. change (pushed r (Notify data :: ?t)) with (pushed r t).
  generalize (messageCallbacks this). intros cbs.
  induction cbs as [|[f|v] cbs IH]; simpl; [done| |done].
  destruct (f σ data) as [[]|?]; [|done].
  by destruct (call_each cbs σ data).
Qed.

Lemma complete_lines_no_line_feed (text : jsstring) :
  no_line_feed text = true -> complete_lines text = [].
Proof.
  intros H. by rewrite complete_lines_eq, (lines_rest_no_line_feed _ H).
Qed.

(** X6. A chunk that brings no line feed to a buffer that holds none is
    only stored: nothing is parsed, no observer is called, the store is
    unchanged, and the buffer is the old buffer followed by the decoded
    text; so a record cut over any number of chunks is parsed once, when
    its line feed arrives. *)
Theorem chunk_without_line_feed_is_buffered this σ toolCalls
    (loc : Locals) (value : list byte) :
  no_line_feed (receivedText loc ++ (decode (decoder loc) value).2) = true ->
  on_chunk this σ toolCalls loc value
  = (σ,
     {| decoder := (decode (decoder loc) value).1;
        receivedText := receivedText loc ++ (decode (decoder loc) value).2 |},
     []).
Proof.
  intros Hno. rewrite on_chunk_lines. cbv zeta.
  by rewrite (lines_rest_no_line_feed _ Hno).
Qed.

(** X7. The notifications of a response stream that ends are those of
    the table, one for each complete line that is an event record of a
    known type, in the order of the lines: neither the cuts between the
    chunks nor what the observers do (return or throw) changes them. *)
Theorem stream_notifications_follow_table this σ toolCalls
    (chunks : list (list byte)) (later : list ReadResult) :
  notified (processStream this σ toolCalls fresh_locals
              (map Chunk chunks ++ Done :: later)).1.2
  = omap (notification_of toolCalls)
      (complete_lines (decode decoder_new (concat chunks)).2).
Proof.
  rewrite processStream_fresh. cbv zeta. cbn [processStream fst snd].
  by rewrite app_nil_r, for_lines_notified.
Qed.

(** X8. When the reader reports the end of the stream the task is
    fulfilled at once, whatever the observers did: only the complete lines
    were processed, the text after the last line feed is dropped without
    being parsed, and no further read is made.  A response without any
    line feed leaves no effect at all. *)
Theorem stream_end_drops_partial_line this σ toolCalls
    (chunks : list (list byte)) (later : list ReadResult) :
  let text := (decode decoder_new (concat chunks)).2 in
  let st := for_lines this σ toolCalls (complete_lines text) in
  processStream this σ toolCalls fresh_locals (map Chunk chunks ++ Done :: later)
  = (st.1, st.2, Fulfilled)
  /\ (no_line_feed text = true ->
      processStream this σ toolCalls fresh_locals (map Chunk chunks ++ Done :: later)
      = (σ, [], Fulfilled)).
Proof.
  cbv zeta. rewrite processStream_fresh. cbv zeta. cbn [processStream fst snd].
  rewrite app_nil_r. split; [done|].
  intros Hno. by rewrite (complete_lines_no_line_feed _ Hno).
Qed.

(** X9. When a read fails, after the complete lines received so far have
    been processed, the error goes to the console, the observers get one
    [error] notification whose text is "Stream error: " followed by the
    message of the error, and the task ends without another read: it is
    fulfilled, or rejected when an observer throws on that notification. *)
Theorem stream_error_notifies_once this σ toolCalls
    (chunks : list (list byte)) (e : jserror) (later : list ReadResult) :
  let text := (decode decoder_new (concat chunks)).2 in
  let st := for_lines this σ toolCalls (complete_lines text) in
  let sent := _notifyCallbacks this st.1 (stream_error_notification e) in
  processStream this σ toolCalls fresh_locals (map Chunk chunks ++ ReadFails e :: later)
  = (st.1,
     st.2 ++ ConsoleError (lit "Error processing stream:") [LogError e] :: sent.1,
     match sent.2 with Return _ => Fulfilled | Throw e' => Rejected e' end)
  /\ notified (processStream this σ toolCalls fresh_locals
                 (map Chunk chunks ++ ReadFails e :: later)).1.2
     = omap (notification_of toolCalls) (complete_lines text)
         ++ [stream_error_notification e].
Proof.
  cbv zeta. rewrite processStream_fresh. cbv zeta.
  cbn [processStream]. unfold on_stream_error, stream_error_notification.
  destruct (notify_effects this
              (for_lines this σ toolCalls
                 (complete_lines (decode decoder_new (concat chunks)).2)).1
              (error (JString (lit "Stream error: " ++ err_message e)))) as [Hn _].
  destruct (_notifyCallbacks _ _ _) as [t c]. cbn [fst snd] in *.
  split; [done|].
  rewrite notified_app, for_lines_notified.
  change (notified (ConsoleError ?a ?b :: t)) with (notified t). by rewrite Hn.
Qed.

(** X10. When every observer returns, the console entries of a stream
    that ends are exactly those of its failing lines, in order: one entry
    "Error parsing event:" with the exception and the line for each
    complete line that is not blank and either does not parse or parses to
    [null].  Blank lines and records of unknown type leave no entry. *)
Theorem stream_console_entries this σ toolCalls
    (chunks : list (list byte)) (later : list ReadResult) :
  observers_return this ->
  logged (processStream this σ toolCalls fresh_locals
            (map Chunk chunks ++ Done :: later)).1.2
  = parse_failures (complete_lines (decode decoder_new (concat chunks)).2).
Proof.
  intros Hret. rewrite processStream_fresh. cbv zeta. cbn [processStream fst snd].
  by rewrite app_nil_r, for_lines_logged.
Qed.

(** X11. An observer that throws on the notification of a line does not
    stop the stream and loses nothing: the exception is caught by the
    catch of the line and goes to the console as "Error parsing event:"
    with that line, the notification was made, and the record of a
    [tool_call] was pushed before the observers were called. *)
Theorem observer_exception_in_stream this σ toolCalls line n e :
  notification_of toolCalls line = Some n ->
  (_notifyCallbacks this (for_line this σ toolCalls line).1 n).2 = Throw e ->
  logged (for_line this σ toolCalls line).2 = [parse_error_log e line]
  /\ notified (for_line this σ toolCalls line).2 = [n]
  /\ pushed toolCalls (for_line this σ toolCalls line).2 = option_list (tool_call_of line)
  /\ (for_line this σ toolCalls line).1
     = match tool_call_of line with
       | Some rec => push σ toolCalls rec
       | None => σ
       end.
Proof.
  intros Hn Hthrow. rewrite for_line_notified, Hn.
  rewrite for_line_store in Hthrow. rewrite for_line_store.
  rewrite for_line_table, Hn. cbv zeta. cbn [snd]. rewrite Hthrow.
  rewrite !logged_app, !pushed_app, notify_pushed.
  destruct (notify_effects this
              (match tool_call_of line with
               | Some rec => push σ toolCalls rec
               | None => σ
               end) n) as [_ ->].
  destruct (tool_call_of line) as [rec|]; cbn; [|done].
  by rewrite bool_decide_eq_true_2.
Qed.

End StreamEnd.

Section StreamSamples.
Import Sample Cases.

Lemma chunk_without_line_feed_is_buffered_witness :
  receivedText (on_chunk (platform := browser) listening one_exchange 0%nat fresh_locals
                  (bytes_of (take 20 content_line))).1.2
  = take 20 content_line
  /\ (on_chunk (platform := browser) listening one_exchange 0%nat fresh_locals
        (bytes_of (take 20 content_line))).2 = [].
Proof.
  rewrite (chunk_without_line_feed_is_buffered (platform := browser) listening
             one_exchange 0%nat fresh_locals (bytes_of (take 20 content_line)))
    by (vm_compute; reflexivity).
  split; vm_compute; reflexivity.
Defined.

Lemma stream_console_entries_witness :
  logged (processStream (platform := browser) listening one_exchange 0%nat fresh_locals
            (map Chunk [bytes_of (unlines mixed)] ++ Done :: [])).1.2
  = [parse_error_log Json.syntax_error broken_line;
     parse_error_log (null_read_error (Platform := browser) (lit "type")) null_line].
Proof.
  etrans.
  - apply (stream_console_entries (platform := browser) listening one_exchange 0%nat
             [bytes_of (unlines mixed)] []).
    intros σ data. reflexivity.
  - vm_compute. reflexivity.
Defined.

Lemma observer_exception_in_stream_witness :
  (for_line (platform := browser) heckled one_exchange 0%nat tool_line).1 !! 0%nat
  = Some [search_call]
  /\ logged (for_line (platform := browser) heckled one_exchange 0%nat tool_line).2
     = [parse_error_log (Err "Error" (lit "observer failed")) tool_line].
Proof.
  destruct (observer_exception_in_stream (platform := browser) heckled one_exchange
              0%nat tool_line
              (tool_call (JString (lit "search")) (JObject [(lit "q", JString (lit "x"))]))
              (Err "Error" (lit "observer failed")))
    as (Hlog & _ & _ & Hstore); [vm_compute; reflexivity ..|].
  split; [|exact Hlog]. rewrite Hstore. vm_compute. reflexivity.
Defined.

End StreamSamples.

(** ** The calls and what they leave *)

Section Calls.
Context `{platform : Platform}.
Implicit Types (this : MCPIntegration) (σ : store).

Lemma call_each_throws (cbs : list callback) σ data :
  forallb (returns σ data) cbs = false ->
  exists e, (call_each cbs σ data).2 = Throw e.
Proof.
  induction cbs as [|cb cbs IH]; [done|]. simpl.
  destruct cb as [f|v]; simpl; [|by eexists].
  destruct (f σ data) as [[]|e]; simpl; [|by eexists].
  intros Hrest. destruct (IH Hrest) as [e He].
  exists e. by destruct (call_each cbs σ data).
Qed.

(** X2. [connect] never throws, never notifies an observer and never
    touches the session identifier, the observers or the store.  On a
    client that is not connected it makes one request, GET
    [/api/agent/health], and resolves with whether the answer had a status
    from 200 to 299; the client is connected afterwards exactly when it
    was before or that check succeeded. *)
Theorem connect_outcome this σ health :
  let call := connect this σ health in
  connected (after call) = connected this || health_ok health
  /\ settled call
     = (if connected this then Return JUndefined
        else Return (JBool (health_ok health)))
  /\ fetched (effects call) = (if connected this then [] else [health_request])
  /\ method health_request = GET
  /\ url health_request = lit "/api/agent/health"
  /\ notified (effects call) = []
  /\ invoked (effects call) = []
  /\ sessionId (after call) = sessionId this
  /\ messageCallbacks (after call) = messageCallbacks this
  /\ heap call = σ
  /\ started call = None.
Proof.
  cbv zeta.
  assert (Hurl : url health_request = lit "/api/agent/health") by (vm_compute; reflexivity).
  unfold connect, health_ok.
  destruct (connected this) eqn:Hc; [by repeat split|].
  destruct health as [response|e]; [destruct (ok response)|];
    cbn [after set_connected connected orb]; rewrite ?Hc; by repeat split.
Qed.

(** X3. On a connected client, a chat request answered with a status
    from 200 to 299 and a body makes [sendMessage] resolve with [true]
    without notifying anyone: its one request is a POST of the message to
    [/api/agent/chat/] followed by the session identifier, the client is
    unchanged, and the exchange it starts has a new array, empty, beside
    the arrays of the other exchanges. *)
Theorem sendMessage_starts_exchange this σ message health response :
  connected this = true ->
  ok response = true ->
  has_body response = true ->
  let call := sendMessage this σ message health (Resolves response) in
  settled call = Return (JBool true)
  /\ effects call = close_eventSource this ++ [Fetch (chat_request this message)]
  /\ method (chat_request this message) = POST
  /\ url (chat_request this message) = lit "/api/agent/chat/" ++ sessionId this
  /\ body (chat_request this message) = Some (JObject [(lit "message", JString message)])
  /\ notified (effects call) = []
  /\ after call = this
  /\ exists exchange,
       started call = Some exchange
       /\ σ !! exchange = None
       /\ heap call = <[exchange := []]> σ.
Proof.
  intros Hc Hok Hbody. cbv zeta.
  unfold sendMessage, send_connected, send_try. rewrite Hc, Hok, Hbody. cbn [negb].
  cbn [settled effects after started heap].
  repeat split.
  - unfold notified. rewrite omap_app. unfold close_eventSource.
    by destruct (eventSource this).
  - exists (fresh (dom σ)). repeat split.
    apply not_elem_of_dom, is_fresh.
Qed.

(** X4. On a connected client, a chat request that is rejected, or
    answered with a status that is not from 200 to 299, starts no stream
    and leaves the client and the store as they were: the error goes to the
    console and the observers get one [error] notification, "Failed to
    send message: " followed by the message of the error (for a status,
    "API error: " and the status in decimal).  The call resolves with
    [false] when every observer returns on that notification, and is
    rejected as soon as one throws. *)
Theorem sendMessage_failure_notifies this σ message health chat e :
  connected this = true ->
  chat_failure chat = Some e ->
  let call := sendMessage this σ message health chat in
  let sent := _notifyCallbacks this σ (send_error_notification e) in
  effects call
  = close_eventSource this
      ++ [Fetch (chat_request this message);
          ConsoleError (lit "Error sending message:") [LogError e]]
      ++ sent.1
  /\ notified (effects call) = [send_error_notification e]
  /\ started call = None
  /\ after call = this
  /\ heap call = σ
  /\ (forallb (returns σ (send_error_notification e)) (messageCallbacks this) = true ->
      settled call = Return (JBool false))
  /\ (forallb (returns σ (send_error_notification e)) (messageCallbacks this) = false ->
      exists e', settled call = Throw e').
Proof.
  intros Hc Hfail. cbv zeta.
  assert (Hsend : send_try this σ message chat
                  = (σ, close_eventSource this ++ [Fetch (chat_request this message)],
                     Throw e, None)).
  { unfold send_try, chat_failure in *. destruct chat as [response|e0].
    - destruct (ok response); [done|]. by injection Hfail as <-.
    - by injection Hfail as <-. }
  unfold sendMessage, send_connected. rewrite Hc, Hsend. cbn [negb].
  fold (send_error_notification e).
  destruct (notify_effects this σ (send_error_notification e)) as [Hn _].
  pose proof (call_each_returns (messageCallbacks this) σ (send_error_notification e))
    as Hret.
  pose proof (call_each_throws (messageCallbacks this) σ (send_error_notification e))
    as Hthrow.
  unfold _notifyCallbacks in *.
  destruct (call_each (messageCallbacks this) σ (send_error_notification e)) as [t c].
  cbn [fst snd effects started after heap settled] in *.
  split; [by rewrite <- (assoc_L (++))|].
  split.
  { rewrite !notified_app. unfold close_eventSource.
    destruct (eventSource this); cbn [app]; exact Hn. }
  repeat split.
  - intros Hall. by rewrite (Hret Hall).
  - intros Hsome. destruct (Hthrow Hsome) as [e' ->]. by exists e'.
Qed.

(** X5. After [endSession] on a connected client has been answered, the
    next [sendMessage] reconnects and goes to the new session: the
    termination request was a DELETE to the chat address of the old
    identifier, and the message is sent, after one liveness check, to
    [/api/agent/chat/session_] followed by characters 2 to 14 of the new
    draw. *)
Theorem session_rotation this σ response random36 message health chat :
  connected this = true ->
  health_ok health = true ->
  let ended := endSession this σ (Resolves response) random36 in
  let call := sendMessage (after ended) (heap ended) message health chat in
  fetched (effects ended) = [delete_request this]
  /\ method (delete_request this) = DELETE
  /\ url (delete_request this) = lit "/api/agent/chat/" ++ sessionId this
  /\ fetched (effects call) = [health_request; chat_request (after ended) message]
  /\ url (chat_request (after ended) message)
     = lit "/api/agent/chat/session_" ++ substring 2 15 random36
  /\ connected (after call) = true
  /\ sessionId (after call) = _generateSessionId random36.
Proof.
  intros Hc Hh. cbv zeta.
  assert (Hended : after (endSession this σ (Resolves response) random36)
                   = {| sessionId := _generateSessionId random36; connected := false;
                        eventSource := None;
                        messageCallbacks := messageCallbacks this |}).
  { unfold endSession. by rewrite Hc. }
  assert (Hfetch : fetched (effects (endSession this σ (Resolves response) random36))
                   = [delete_request this]).
  { unfold endSession, close_eventSource. rewrite Hc. cbn [negb effects].
    by destruct (eventSource this). }
  rewrite Hended. split; [done|]. split; [done|]. split; [done|].
  set (next := {| sessionId := _generateSessionId random36; connected := false;
                  eventSource := None; messageCallbacks := messageCallbacks this |}).
  assert (Hconn : connect next (heap (endSession this σ (Resolves response) random36))
                    health
                  = {| after := set_connected true next;
                       heap := heap (endSession this σ (Resolves response) random36);
                       effects := [Fetch health_request];
                       settled := Return (JBool true); started := None |}).
  { unfold connect, health_ok in *. cbn [connected next].
    destruct health as [r|?]; [|done]. by rewrite Hh. }
  unfold sendMessage. cbn [connected next negb]. rewrite Hconn.
  cbn [settled value_of truthy negb effects after heap].
  destruct (send_connected_preserves (set_connected true next)
              (heap (endSession this σ (Resolves response) random36)) message chat)
    as [Hafter _].
  rewrite Hafter, fetched_app, send_connected_fetched.
  by repeat split.
Qed.

End Calls.

Section CallSamples.
Import Sample Cases.

Lemma sendMessage_starts_exchange_witness :
  started (sendMessage (platform := browser) listening one_exchange (lit "hello")
             offline (Resolves {| status := 200; has_body := true |}))
  = Some 1%nat.
Proof.
  destruct (sendMessage_starts_exchange (platform := browser) listening one_exchange
              (lit "hello") offline {| status := 200; has_body := true |})
    as (_ & _ & _ & _ & _ & _ & _ & exchange & Hstarted & _ & _);
    [reflexivity ..|].
  vm_compute. reflexivity.
Defined.

Lemma sendMessage_failure_notifies_witness :
  notified (effects (sendMessage (platform := browser) listening one_exchange
                       (lit "hello") offline error404))
  = [error (JString (lit "Failed to send message: API error: 404"))].
Proof.
  destruct (sendMessage_failure_notifies (platform := browser) listening one_exchange
              (lit "hello") offline error404
              (Err "Error" (lit "API error: 404")))
    as (_ & Hnotified & _); [vm_compute; reflexivity ..|].
  etrans; [exact Hnotified|]. vm_compute. reflexivity.
Defined.

Lemma session_rotation_witness :
  url (chat_request
         (after (endSession listening one_exchange ok200 redraw)) (lit "hello"))
  = lit "/api/agent/chat/session_k3x9q0d7t1a".
Proof.
  destruct (session_rotation (platform := browser) listening one_exchange
              {| status := 200; has_body := true |} redraw (lit "hello") ok200 ok200)
    as (_ & _ & _ & _ & Hurl & _); [reflexivity ..|].
  etrans; [exact Hurl|]. vm_compute. reflexivity.
Defined.

End CallSamples.

(** ** The page over any run *)

Section Runs.
Context `{platform : Platform}.
Implicit Types (this : MCPIntegration) (σ : store) (s : System).

Lemma run_app random36 (inputs more : list Input) :
  run random36 (inputs ++ more) = foldl step (run random36 inputs) more.
Proof. unfold run. apply foldl_app. Qed.

Lemma sendMessage_client this σ message health chat :
  after (sendMessage this σ message health chat)
  = (if connected this then this
     else if health_ok health then set_connected true this else this).
Proof.
  unfold sendMessage. destruct (connected this) eqn:Hc; cbn [negb].
  { by destruct (send_connected_preserves this σ message chat) as [-> _]. }
  unfold connect, health_ok. rewrite Hc.
  destruct health as [response|e]; [destruct (ok response)|];
    cbn [negb settled value_of truthy after heap]; try done.
  by destruct (send_connected_preserves (set_connected true this) σ message chat)
    as [-> _].
Qed.

(** One step, on the client. *)
Lemma step_client s (i : Input) :
  client (step s i) =
    match i with
    | CallConnect health =>
        if connected (client s) then client s
        else if health_ok health then set_connected true (client s) else client s
    | CallSendMessage message health chat =>
        if connected (client s) then client s
        else if health_ok health then set_connected true (client s) else client s
    | CallOnMessage cb => onMessage (client s) cb
    | CallEndSession deleted random36 =>
        after (endSession (client s) (arrays s) deleted random36)
    | Read _ _ => client s
    end.
Proof.
  destruct i as [health|message health chat|cb|deleted random36|exchange res];
    cbn [step after_call client]; try done.
  - unfold connect, health_ok. destruct (connected (client s)); [done|].
    destruct health as [response|e]; [by destruct (ok response)|done].
  - apply sendMessage_client.
  - destruct (consumers s !! exchange); [|done].
    by destruct (processStream _ _ _ _ _) as [[??]?].
Qed.

(** X14. The state of the client over a run.  Only an [endSession] that
    is answered on a connected client changes the session identifier, to
    the one generated from its draw; [connect] and [sendMessage] connect a
    client that is not connected exactly when the liveness check succeeds
    and never disconnect it; only an answered [endSession] disconnects;
    [onMessage] and the reads of the streams change neither. *)
Theorem session_state_machine random36 (inputs : list Input) (i : Input) :
  let before := client (run random36 inputs) in
  let now := client (run random36 (inputs ++ [i])) in
  sessionId now =
    match i with
    | CallEndSession (Resolves _) draw =>
        if connected before then _generateSessionId draw else sessionId before
    | _ => sessionId before
    end
  /\ connected now =
    match i with
    | CallConnect health | CallSendMessage _ health _ =>
        connected before || health_ok health
    | CallEndSession (Resolves _) _ => false
    | _ => connected before
    end.
Proof.
  cbv zeta. rewrite run_snoc, step_client.
  set (before := client (run random36 inputs)).
  destruct i as [health|message health chat|cb|deleted draw|exchange res].
  - destruct (connected before) eqn:Hc; [done|]. by destruct (health_ok health).
  - destruct (connected before) eqn:Hc; [done|]. by destruct (health_ok health).
  - unfold onMessage. by destruct (is_function cb).
  - unfold endSession. destruct (connected before) eqn:Hc; cbn [negb].
    + by destruct deleted.
    + by destruct deleted.
  - done.
Qed.

Lemma step_sessionId_generated s (i : Input) :
  (exists draw, sessionId (client s) = _generateSessionId draw) ->
  exists draw, sessionId (client (step s i)) = _generateSessionId draw.
Proof.
  intros [d Hd]. rewrite step_client.
  destruct i as [health|message health chat|cb|deleted draw|exchange res].
  - exists d. destruct (connected (client s)); [done|]. by destruct (health_ok health).
  - exists d. destruct (connected (client s)); [done|]. by destruct (health_ok health).
  - exists d. unfold onMessage. by destruct (is_function cb).
  - unfold endSession. destruct (negb (connected (client s))); [by exists d|].
    destruct deleted; [by exists draw|by exists d].
  - by exists d.
Qed.

(** X1. The session identifier of the client, at any moment of any run,
    is [session_] followed by at most 13 characters, those from position 2
    of a draw as [toString(36)] printed it: so it always starts with
    [session_] and is never longer than 21 characters. *)
Theorem session_id_shape random36 (inputs : list Input) :
  let id := sessionId (client (run random36 inputs)) in
  (exists draw, id = lit "session_" ++ take 13 (drop 2 draw))
  /\ take 8 id = lit "session_"
  /\ (8 <= length id <= 21)%nat.
Proof.
  cbv zeta.
  assert (Hgen : exists draw,
    sessionId (client (run random36 inputs)) = _generateSessionId draw).
  { induction inputs as [|i inputs IH] using rev_ind; [by exists random36|].
    rewrite run_snoc. by apply step_sessionId_generated. }
  destruct Hgen as [draw ->]. unfold _generateSessionId, substring.
  split; [by exists draw|]. split; [done|].
  rewrite length_app, length_take.
  change (length (lit "session_")) with 8%nat. lia.
Qed.

(** X12. The observers of the client, after any run, are exactly the
    functions that were given to [onMessage], in the order of the calls:
    no other call and no stream adds, removes or reorders an observer. *)
Theorem observers_are_the_registered random36 (inputs more : list Input) :
  messageCallbacks (client (run random36 inputs)) = registered_by inputs
  /\ messageCallbacks (client (run random36 (inputs ++ more)))
     = messageCallbacks (client (run random36 inputs)) ++ registered_by more.
Proof.
  assert (Hall : forall l, messageCallbacks (client (run random36 l)) = registered_by l).
  { intros l. induction l as [|i l IH] using rev_ind; [done|].
    rewrite run_snoc, step_client. unfold registered_by in *.
    rewrite omap_app, List.filter_app, <- IH.
    destruct i as [health|message health chat|cb|deleted draw|exchange res];
      cbn [omap list_omap List.filter app]; rewrite ?app_nil_r.
    - destruct (connected _); [done|]. by destruct (health_ok health).
    - destruct (connected _); [done|]. by destruct (health_ok health).
    - unfold onMessage. destruct (is_function cb); [done|]. by rewrite app_nil_r.
    - unfold endSession. destruct (negb _); [done|]. by destruct deleted.
    - done. }
  split; [apply Hall|].
  rewrite !Hall. unfold registered_by. by rewrite omap_app, List.filter_app.
Qed.

(** *** The arrays of the exchanges *)

Lemma processStream_held this σ toolCalls (loc : Locals) reads (r : array_ref) held :
  σ !! r = Some held ->
  exists added,
    (processStream this σ toolCalls loc reads).1.1 !! r = Some (held ++ added).
Proof.
  revert σ loc held.
  induction reads as [|[value| |e] reads IH]; intros σ loc held Hσ.
  - exists []. by rewrite app_nil_r.
  - cbn [processStream]. rewrite on_chunk_lines. cbv beta iota zeta.
    set (lines := (lines_rest (receivedText loc ++ (decode (decoder loc) value).2)).1).
    assert (Hmid : exists mid,
      (for_lines this σ toolCalls lines).1 !! r = Some (held ++ mid)).
    { destruct (decide (r = toolCalls)) as [->|Hne].
      - eexists. by apply for_lines_toolCalls.
      - exists []. by rewrite for_lines_frame, app_nil_r. }
    destruct Hmid as [mid Hmid].
    destruct (IH (for_lines this σ toolCalls lines).1
                {| decoder := (decode (decoder loc) value).1;
                   receivedText :=
                     (lines_rest (receivedText loc ++ (decode (decoder loc) value).2)).2 |}
                (held ++ mid) Hmid) as [added Hadded].
    destruct (processStream _ _ _ _ reads) as [[σ2 t2] task]. cbn [fst snd] in *.
    exists (mid ++ added). by rewrite (assoc_L (++)).
  - exists []. by rewrite app_nil_r.
  - cbn [processStream]. destruct (on_stream_error this σ e).
    exists []. by rewrite app_nil_r.
Qed.

Lemma processStream_frame this σ toolCalls (loc : Locals) reads (r : array_ref) :
  r <> toolCalls ->
  (processStream this σ toolCalls loc reads).1.1 !! r = σ !! r.
Proof.
  intros Hne. revert σ loc.
  induction reads as [|[value| |e] reads IH]; intros σ loc; [done| |done|].
  - cbn [processStream]. rewrite on_chunk_lines. cbv beta iota zeta.
    specialize (IH (for_lines this σ toolCalls
      (lines_rest (receivedText loc ++ (decode (decoder loc) value).2)).1).1
      {| decoder := (decode (decoder loc) value).1;
         receivedText :=
           (lines_rest (receivedText loc ++ (decode (decoder loc) value).2)).2 |}).
    destruct (processStream _ _ _ _ reads) as [[σ2 t2] task]. cbn [fst snd] in *.
    by rewrite IH, for_lines_frame.
  - cbn [processStream]. by destruct (on_stream_error this σ e).
Qed.

Lemma step_held s (i : Input) (r : array_ref) held :
  arrays s !! r = Some held ->
  exists added, arrays (step s i) !! r = Some (held ++ added).
Proof.
  intros Hr.
  destruct i as [health|message health chat|cb|deleted draw|exchange res];
    cbn [step after_call arrays].
  - destruct (connect_preserves (client s) (arrays s) health) as (_ & _ & _ & _ & _ & ->).
    exists []. by rewrite app_nil_r.
  - pose proof (sendMessage_heap (client s) (arrays s) message health chat) as Hheap.
    destruct (started _) as [exchange|].
    + destruct Hheap as [-> ->]. exists []. rewrite app_nil_r, lookup_insert_ne; [done|].
      intros <-. apply (is_fresh (dom (arrays s))). by apply elem_of_dom_2 in Hr.
    + rewrite Hheap. exists []. by rewrite app_nil_r.
  - exists []. by rewrite app_nil_r.
  - exists []. rewrite app_nil_r. unfold endSession.
    destruct (negb _); [done|]. by destruct deleted.
  - destruct (consumers s !! exchange) as [loc|].
    + destruct (processStream_held (client s) (arrays s) exchange loc [res] r held Hr)
        as [added Hadded].
      destruct (processStream _ _ _ _ _) as [[σ t] task]. by exists added.
    + exists []. by rewrite app_nil_r.
Qed.

(** X13. The [toolCalls] array of an exchange is never cleared, shortened
    or rewritten: over any continuation of any run it only gets records
    appended.  And the chunks read on the stream of one exchange leave the
    arrays of all the other exchanges as they are. *)
Theorem exchange_arrays_only_grow random36 (inputs more : list Input)
    (r exchange : array_ref) (res : ReadResult) :
  match arrays (run random36 inputs) !! r with
  | Some held =>
      exists added, arrays (run random36 (inputs ++ more)) !! r = Some (held ++ added)
  | None => True
  end
  /\ (r <> exchange ->
      arrays (step (run random36 inputs) (Read exchange res)) !! r
      = arrays (run random36 inputs) !! r).
Proof.
  split.
  - destruct (arrays (run random36 inputs) !! r) as [held|] eqn:Hr; [|done].
    induction more as [|i more IH] using rev_ind.
    { exists []. by rewrite !app_nil_r. }
    destruct IH as [added Hadded].
    rewrite (assoc_L (++)), run_snoc.
    destruct (step_held _ i r _ Hadded) as [added' Hstep].
    exists (added ++ added'). by rewrite (assoc_L (++)).
  - intros Hne. cbn [step].
    destruct (consumers (run random36 inputs) !! exchange) as [loc|]; [|done].
    pose proof (processStream_frame (client (run random36 inputs))
                  (arrays (run random36 inputs)) exchange loc [res] r Hne) as Hframe.
    by destruct (processStream _ _ _ _ _) as [[σ t] task].
Qed.

End Runs.

(** ** The host page *)

Section Host.
Context `{platform : Platform}.

(** X15. Loading the script always puts a new, disconnected client
    without observers on the page and leaves the configuration as it is.
    Without a truthy configuration (a number that is read as zero is not
    one) the registry is not touched and the console gets a warning.  With
    one, the console gets the log entry, and the registry: an object gets
    the provider named "MCP Agent" under the key [mcp] and keeps what it
    has under every other key; a falsy value is replaced by an object with
    that one provider; a truthy primitive is kept, and nothing is
    registered on it. *)
Theorem load_registers_provider (window : Window) (random36 : jsstring) (key : jsstring) :
  let loaded := (load window random36).1 in
  let out := (load window random36).2 in
  let mcp := McpAgent (lit "MCP Agent") in
  mcpIntegration loaded = Some (constructor random36)
  /\ OPENWEBUI_CONFIG loaded = OPENWEBUI_CONFIG window
  /\ if truthy (OPENWEBUI_CONFIG window) then
       out = [ConsoleLog (lit "MCP integration loaded successfully")]
       /\ match OPENWEBUI_PROVIDERS window with
          | Providers entries =>
              exists registry,
                OPENWEBUI_PROVIDERS loaded = Providers registry
                /\ registry !! lit "mcp" = Some mcp
                /\ (key <> lit "mcp" -> registry !! key = entries !! key)
          | NotAnObject p =>
              if truthy (value_of_primitive p)
              then OPENWEBUI_PROVIDERS loaded = NotAnObject p
              else exists registry,
                     OPENWEBUI_PROVIDERS loaded = Providers registry
                     /\ registry !! lit "mcp" = Some mcp
                     /\ (key <> lit "mcp" -> registry !! key = None)
          end
     else
       OPENWEBUI_PROVIDERS loaded = OPENWEBUI_PROVIDERS window
       /\ out = [ConsoleWarn (lit "OpenWebUI config not found")].
Proof.
  cbv zeta. unfold load.
  split; [by destruct (truthy (OPENWEBUI_CONFIG window))|].
  split; [by destruct (truthy (OPENWEBUI_CONFIG window))|].
  destruct (truthy (OPENWEBUI_CONFIG window)); cbn [fst snd OPENWEBUI_PROVIDERS];
    [|done].
  split; [done|]. unfold register_mcp.
  destruct (OPENWEBUI_PROVIDERS window) as [p|entries].
  - destruct (truthy (value_of_primitive p)); [done|].
    eexists. split; [done|]. split.
    + apply lookup_insert_eq.
    + intros Hne. by rewrite lookup_insert_ne.
  - eexists. split; [done|]. split.
    + apply lookup_insert_eq.
    + intros Hne. by rewrite lookup_insert_ne.
Qed.

(** X16. The provider over one session: [init] on a new client, then
    [sendMessage] with any model and any options, then [cleanup], all
    answered with success, make three requests in all, the liveness check,
    the POST of the message and the DELETE, the last two to the chat
    address of the same session identifier; the client ends disconnected
    with the identifier of the new draw, and the model and the options
    change nothing. *)
Theorem provider_session (this : MCPIntegration) (σ : store)
    (model options : jsval) (message : jsstring)
    (health health' : FetchOutcome) (response deleted : Response) (random36 : jsstring) :
  connected this = false ->
  health_ok health = true ->
  ok response = true ->
  has_body response = true ->
  let ready := provider_init this σ health in
  let sent := provider_sendMessage (after ready) (heap ready) model message options
                health' (Resolves response) in
  let ended := provider_cleanup (after sent) (heap sent) (Resolves deleted) random36 in
  settled ready = Return (JBool true)
  /\ settled sent = Return (JBool true)
  /\ fetched (effects ready ++ effects sent ++ effects ended)
     = [health_request; chat_request this message; delete_request this]
  /\ url (chat_request this message) = url (delete_request this)
  /\ connected (after ended) = false
  /\ sessionId (after ended) = _generateSessionId random36
  /\ messageCallbacks (after ended) = messageCallbacks this.
Proof.
  intros Hc Hh Hok Hbody. cbv zeta.
  unfold provider_init, provider_sendMessage, provider_cleanup.
  assert (Hready : connect this σ health
                   = {| after := set_connected true this; heap := σ;
                        effects := [Fetch health_request];
                        settled := Return (JBool true); started := None |}).
  { unfold connect, health_ok in *. rewrite Hc.
    destruct health as [r|?]; [|done]. by rewrite Hh. }
  rewrite Hready. cbn [after heap settled effects].
  set (on := set_connected true this).
  assert (Hsent : sendMessage on σ message health' (Resolves response)
                  = {| after := on; heap := <[fresh (dom σ) := []]> σ;
                       effects := close_eventSource on ++ [Fetch (chat_request on message)];
                       settled := Return (JBool true);
                       started := Some (fresh (dom σ)) |}).
  { unfold sendMessage, send_connected, send_try.
    cbn [connected on set_connected negb]. by rewrite Hok, Hbody. }
  rewrite Hsent. cbn [after heap settled effects].
  unfold endSession. cbn [connected on set_connected negb effects after].
  repeat split.
  unfold close_eventSource. cbn [eventSource on set_connected].
  rewrite !fetched_app. by destruct (eventSource this).
Qed.

End Host.

Section HostSamples.
Import Sample Cases.

(** A configuration that is a number read as zero, and a registry that is
    a truthy primitive: in the first case the script warns and registers
    nothing, in the second it logs and registers nothing. *)
Lemma load_without_registration :
  truthy (JNumber (lit "1e-400")) = false
  /\ load {| mcpIntegration := None; OPENWEBUI_CONFIG := JNumber (lit "1e-400");
             OPENWEBUI_PROVIDERS := NotAnObject PUndefined |} draw
     = ({| mcpIntegration := Some fresh_client;
           OPENWEBUI_CONFIG := JNumber (lit "1e-400");
           OPENWEBUI_PROVIDERS := NotAnObject PUndefined |},
        [ConsoleWarn (lit "OpenWebUI config not found")])
  /\ load {| mcpIntegration := None; OPENWEBUI_CONFIG := JBool true;
             OPENWEBUI_PROVIDERS := NotAnObject (PNumber (lit "5")) |} draw
     = ({| mcpIntegration := Some fresh_client;
           OPENWEBUI_CONFIG := JBool true;
           OPENWEBUI_PROVIDERS := NotAnObject (PNumber (lit "5")) |},
        [ConsoleLog (lit "MCP integration loaded successfully")]).
Proof. repeat split; vm_compute; reflexivity. Qed.

Lemma provider_session_witness :
  fetched (effects (provider_init fresh_client ∅ ok200)
           ++ effects (provider_sendMessage (platform := browser)
                         (after (provider_init fresh_client ∅ ok200)) ∅
                         (JString (lit "gpt")) (lit "hello") JNull offline ok200)
           ++ effects (provider_cleanup
                         (after (provider_sendMessage (platform := browser)
                                   (after (provider_init fresh_client ∅ ok200)) ∅
                                   (JString (lit "gpt")) (lit "hello") JNull offline ok200))
                         (heap (provider_sendMessage (platform := browser)
                                  (after (provider_init fresh_client ∅ ok200)) ∅
                                  (JString (lit "gpt")) (lit "hello") JNull offline ok200))
                         ok200 redraw))
  = [health_request; chat_request fresh_client (lit "hello");
     delete_request fresh_client].
Proof.
  destruct (provider_session (platform := browser) fresh_client ∅
              (JString (lit "gpt")) JNull (lit "hello") ok200 offline
              {| status := 200; has_body := true |}
              {| status := 200; has_body := true |} redraw)
    as (_ & _ & Hfetched & _); [reflexivity ..|].
  exact Hfetched.
Defined.

End HostSamples.
